(** * Monarch particle dreamscape: the butterfly particle system

    A shallow embedding of [AdvancedParticleSystem] (the SVG particle
    component) and of the host page's [handleTransform].

    Numbers.  A JavaScript [number] that holds a coordinate, a progress
    value or an offset is modelled as a real number ([R]): the arithmetic
    of the embedding is the exact arithmetic that the binary64 operations
    of the source round.  Counts (the particle count, the loop bounds
    derived from it, loop indices) are integers ([Z]); the three products
    [Math.floor(n * 0.15)], [Math.floor(n * 0.05)] and [Math.floor(n * 0.6)]
    are written over [R] as in the source, shown equal to an integer
    quotient, and compared in [Binary64] with the same products evaluated
    in IEEE binary64.

    Effects.  [Math.random()] reads an explicit stream of draws through a
    cursor kept in the component state, [Date.now()] and the window size
    are arguments, the SVG element of a particle is a record of the
    attributes the code writes, and a GSAP timeline is a piece of data the
    component schedules together with the callbacks GSAP runs for it. *)

From Stdlib Require Import String Ascii.
From Stdlib Require Import ZArith List Bool Lia.
From Stdlib Require Import Reals Lra.
From Stdlib Require Floats Uint63.
Import ListNotations.

Local Open Scope R_scope.

(** ** JavaScript arithmetic used by the component *)

Module JS.

(** [Math.floor]: the largest integer not above [r]. *)
Definition Math_floor (r : R) : Z := Int_part r.

(** [Math.min]. *)
Definition Math_min (a b : R) : R := Rmin a b.

(** [Math.pow(2, e)]. *)
Definition Math_pow2 (e : R) : R := Rpower 2 e.

(** [a < b] and [a > b] as the booleans an [if] tests. *)
Definition ltb (a b : R) : bool := if Rlt_dec a b then true else false.
Definition gtb (a b : R) : bool := ltb b a.

(** [a === b] on numbers. *)
Definition eqb (a b : R) : bool := if Req_dec_T a b then true else false.

(** [for (let i = 0; i < n; i++)] with an integer bound: the indices
    visited, in order. *)
Definition range (n : Z) : list Z := map Z.of_nat (seq 0 (Z.to_nat n)).

(** [for (let i = 0; i < n / 2; i++)]: [n / 2] is a JavaScript division,
    so the bound is a half-integer when [n] is odd; the indices visited
    are the integers [i >= 0] with [2 * i < n]. *)
Definition half_range (n : Z) : list Z := range ((n + 1) / 2).

(** [for (let side = -1; side <= 1; side += 2)]. *)
Definition sides : list Z := [-1; 1]%Z.

(** [array.map((a, i) => f(i, a))], the indices starting at [k]. *)
Fixpoint mapi_from {A B : Type} (f : nat -> A -> B) (k : nat) (l : list A)
    : list B :=
  match l with
  | [] => []
  | a :: l' => f k a :: mapi_from f (S k) l'
  end.

Definition mapi {A B : Type} (f : nat -> A -> B) (l : list A) : list B :=
  mapi_from f 0 l.

End JS.

(** ** The counts in IEEE binary64

    The source multiplies an integer-valued double by the double nearest
    to 0.15, 0.05 or 0.6 and floors the rounded product.  The functions
    below evaluate exactly that with the kernel's binary64 numbers. *)

Module Binary64.

Definition of_Z (n : Z) : PrimFloat.float :=
  if (n <? 0)%Z
  then PrimFloat.opp (PrimFloat.of_uint63 (Uint63.of_Z (- n)))
  else PrimFloat.of_uint63 (Uint63.of_Z n).

(** The floor of a finite double; [None] on NaN and the infinities. *)
Definition floor (f : PrimFloat.float) : option Z :=
  match FloatOps.Prim2SF f with
  | SpecFloat.S754_zero _ => Some 0%Z
  | SpecFloat.S754_finite s m e =>
      let num := Z.pos m in
      let q := if (0 <=? e)%Z then (num * 2 ^ e)%Z else (num / 2 ^ (- e))%Z in
      let exact := if (0 <=? e)%Z then true else (num mod 2 ^ (- e) =? 0)%Z in
      Some (if s then (if exact then - q else - q - 1)%Z else q)
  | _ => None
  end.

(** The double a decimal literal [num / den] denotes: the double nearest
    to the quotient, which the correctly rounded division of the two
    (exactly representable) integers returns. *)
Definition literal (num den : Z) : PrimFloat.float :=
  PrimFloat.div (of_Z num) (of_Z den).

(** [Math.floor(n * c)]. *)
Definition floor_mul (n : Z) (c : PrimFloat.float) : option Z :=
  floor (PrimFloat.mul (of_Z n) c).

(** [Math.floor(n * c)] in binary64, for the literal [c = num / den], is
    the integer quotient [num * n / den]. *)
Definition agrees (num den n : Z) : bool :=
  match floor_mul n (literal num den) with
  | Some k => (k =? num * n / den)%Z
  | None => false
  end.

End Binary64.

(** ** Data model *)

Inductive PointType : Type := body | upperWing | lowerWing | antenna.

Definition PointType_eqb (a b : PointType) : bool :=
  match a, b with
  | body, body | upperWing, upperWing | lowerWing, lowerWing
  | antenna, antenna => true
  | _, _ => false
  end.

Module ButterflyPoint.
Record t : Type := mk {
  x : R;
  y : R;
  type : PointType;
  color : string
}.
End ButterflyPoint.

(** [window.innerWidth] and [window.innerHeight]. *)
Record Window : Type := {
  innerWidth : R;
  innerHeight : R
}.

(** ** The shape generator *)

Module Shape.
Import JS.

(** The points emitted so far, and the divisor of every division by a
    computed quantity that an executed iteration performs, in order. *)
Record Gen : Type := {
  points : list ButterflyPoint.t;
  divisors : list R
}.

Definition start : Gen := {| points := []; divisors := [] |}.

(** [points.push(p)]. *)
Definition push (p : ButterflyPoint.t) (g : Gen) : Gen :=
  {| points := points g ++ [p]; divisors := divisors g |}.

(** Records that the running iteration divides by [d]. *)
Definition dividing_by (d : R) (g : Gen) : Gen :=
  {| points := points g; divisors := divisors g ++ [d] |}.

Definition getWingColor (x y centerX centerY : R) : string :=
  let dotSize := 30 in
  let gridX := Math_floor ((x - centerX + 200) / dotSize) in
  let gridY := Math_floor ((y - centerY + 200) / dotSize) in
  let dotCenterX := centerX - 200 + IZR gridX * dotSize + dotSize / 2 in
  let dotCenterY := centerY - 200 + IZR gridY * dotSize + dotSize / 2 in
  let distToDot := sqrt ((x - dotCenterX) ^ 2 + (y - dotCenterY) ^ 2) in
  if ltb distToDot 8
  then (if (Z.rem (gridX + gridY) 3 =? 0)%Z then "#DC143C" else "#1A1A1A")%string
  else "#FFD700"%string.

(** One iteration of the body loop: the inner [j] loop pushes at most two
    points and stops pushing once [points.length] reaches
    [bodyParticles]. *)
Definition bodyStep (centerX centerY scale : R) (bodyParticles : Z)
    (g : Gen) (i : Z) : Gen :=
  let d := IZR bodyParticles - 1 in
  let progress := IZR i / d in
  let y := centerY + (progress - 0.5) * 120 * scale in
  let thickness := sin (progress * PI) * 3 in
  fold_left
    (fun g j =>
       if (Z.of_nat (length (points g)) <? bodyParticles)%Z
       then push (ButterflyPoint.mk (centerX + (IZR j - 0.5) * thickness) y
                    body "#8B4513") g
       else g)
    (range 2) (dividing_by d g).

Definition antennaStep (centerX centerY scale : R) (antennaParticles side : Z)
    (g : Gen) (i : Z) : Gen :=
  let d := IZR antennaParticles / 2 - 1 in
  let progress := IZR i / d in
  let curve := sin (progress * PI * 0.5) in
  push (ButterflyPoint.mk
          (centerX + IZR side * (12 + progress * 25) * scale)
          (centerY - 70 * scale - progress * 20 * scale + curve * 10 * scale)
          antenna "#1A1A1A")
       (dividing_by d g).

Definition upperWingStep (centerX centerY scale : R) (upperWingParticles side : Z)
    (g : Gen) (i : Z) : Gen :=
  let d := IZR upperWingParticles / 2 in
  let angle := IZR i / d * PI in
  let radius := 40 + 25 * sin (angle * 2) in
  let x := centerX + IZR side * radius * cos angle * scale in
  let y := centerY - 30 * scale + radius * sin angle * 0.8 * scale in
  push (ButterflyPoint.mk x y upperWing (getWingColor x y centerX centerY))
       (dividing_by d g).

Definition lowerWingStep (centerX centerY scale : R) (lowerWingParticles side : Z)
    (g : Gen) (i : Z) : Gen :=
  let d := IZR lowerWingParticles / 2 in
  let angle := IZR i / d * PI * 0.7 in
  let radius := 25 + 15 * sin (angle * 3) in
  let x := centerX + IZR side * radius * cos angle * scale in
  let y := centerY + 20 * scale + radius * sin angle * 0.9 * scale in
  push (ButterflyPoint.mk x y lowerWing (getWingColor x y centerX centerY))
       (dividing_by d g).

(** A [side] loop around an [i < n / 2] loop. *)
Definition both_sides (step : Z -> Gen -> Z -> Gen) (n : Z) (g : Gen) : Gen :=
  fold_left (fun g side => fold_left (step side) (half_range n) g) sides g.

Definition generateWings (g : Gen) (centerX centerY scale : R)
    (wingParticles : Z) : Gen :=
  let upperWingParticles := Math_floor (IZR wingParticles * 0.6) in
  let lowerWingParticles := (wingParticles - upperWingParticles)%Z in
  let g := both_sides (upperWingStep centerX centerY scale upperWingParticles)
             upperWingParticles g in
  both_sides (lowerWingStep centerX centerY scale lowerWingParticles)
    lowerWingParticles g.

(** The generator, with the divisors it uses. *)
Definition generate (win : Window) (particleCount : Z) : Gen :=
  let centerX := innerWidth win / 2 in
  let centerY := innerHeight win / 2 - 50 in
  let scale := Math_min (innerWidth win) (innerHeight win) / 800 in
  let bodyParticles := Math_floor (IZR particleCount * 0.15) in
  let g := fold_left (bodyStep centerX centerY scale bodyParticles)
             (range bodyParticles) start in
  let antennaParticles := Math_floor (IZR particleCount * 0.05) in
  let g := both_sides (antennaStep centerX centerY scale antennaParticles)
             antennaParticles g in
  let wingParticles := (particleCount - Z.of_nat (length (points g)))%Z in
  generateWings g centerX centerY scale wingParticles.

Definition generateButterflyShape (win : Window) (particleCount : Z)
    : list ButterflyPoint.t :=
  points (generate win particleCount).

(** The number of points of a given type. *)
Definition count (ty : PointType) (l : list ButterflyPoint.t) : Z :=
  Z.of_nat (length (filter (fun p => PointType_eqb (ButterflyPoint.type p) ty) l)).

(** What the loops emit, as integer arithmetic on the particle count. *)
Definition bodyBudget (n : Z) : Z := (15 * n / 100)%Z.
Definition antennaBudget (n : Z) : Z := (5 * n / 100)%Z.
Definition bodyCount (n : Z) : Z := Z.max 0 (bodyBudget n).
Definition pairCount (budget : Z) : Z := (2 * Z.max 0 ((budget + 1) / 2))%Z.
Definition antennaCount (n : Z) : Z := pairCount (antennaBudget n).
Definition wingBudget (n : Z) : Z := (n - (bodyCount n + antennaCount n))%Z.
Definition upperBudget (n : Z) : Z := (6 * wingBudget n / 10)%Z.
Definition lowerBudget (n : Z) : Z := (wingBudget n - upperBudget n)%Z.
Definition upperCount (n : Z) : Z := pairCount (upperBudget n).
Definition lowerCount (n : Z) : Z := pairCount (lowerBudget n).

(** A color of the form [#RRGGBB]. *)
Definition is_hex (c : ascii) : bool :=
  let n := nat_of_ascii c in
  ((48 <=? n) && (n <=? 57) || (65 <=? n) && (n <=? 70)
   || (97 <=? n) && (n <=? 102))%nat.

Definition well_formed_color (s : string) : bool :=
  match s with
  | String "#" rest =>
      (String.length rest =? 6)%nat && forallb is_hex (list_ascii_of_string rest)
  | _ => false
  end.

(** The point pushed by iteration [i] of a wing loop on side [side]. *)
Definition upperWingPoint (centerX centerY scale : R)
    (upperWingParticles side i : Z) : ButterflyPoint.t :=
  let angle := IZR i / (IZR upperWingParticles / 2) * PI in
  let radius := 40 + 25 * sin (angle * 2) in
  let x := centerX + IZR side * radius * cos angle * scale in
  let y := centerY - 30 * scale + radius * sin angle * 0.8 * scale in
  ButterflyPoint.mk x y upperWing (getWingColor x y centerX centerY).

Definition lowerWingPoint (centerX centerY scale : R)
    (lowerWingParticles side i : Z) : ButterflyPoint.t :=
  let angle := IZR i / (IZR lowerWingParticles / 2) * PI * 0.7 in
  let radius := 25 + 15 * sin (angle * 3) in
  let x := centerX + IZR side * radius * cos angle * scale in
  let y := centerY + 20 * scale + radius * sin angle * 0.9 * scale in
  ButterflyPoint.mk x y lowerWing (getWingColor x y centerX centerY).

(** A point and its mirror image in the vertical line through
    [centerX]. *)
Definition mirrored (centerX : R) (p q : ButterflyPoint.t) : Prop :=
  ButterflyPoint.x q - centerX = - (ButterflyPoint.x p - centerX) /\
  ButterflyPoint.y q = ButterflyPoint.y p /\
  ButterflyPoint.type q = ButterflyPoint.type p.

(** A point within 65 and 82 scaled pixels of the centre. *)
Definition inWingBox (centerX centerY scale : R) (p : ButterflyPoint.t) : Prop :=
  Rabs (ButterflyPoint.x p - centerX) <= 65 * scale /\
  Rabs (ButterflyPoint.y p - centerY) <= 82 * scale.

(** Points of one type, each with a well-formed color. *)
Definition emitted (ty : PointType) (l : list ButterflyPoint.t) : Prop :=
  Forall (fun p => ButterflyPoint.type p = ty /\
                   well_formed_color (ButterflyPoint.color p) = true) l.

End Shape.

(** ** Particles and their SVG circles *)

(** The attributes and GSAP properties of a particle's circle that the
    component writes. *)
Module Element.
Record t : Type := mk {
  cx : R;
  cy : R;
  r : R;
  fill : string;
  opacityAttr : R;   (* the [opacity] attribute *)
  scale : R;         (* GSAP's [scale] *)
  opacity : R        (* GSAP's [opacity] *)
}.

(** [el.setAttribute('cx', x); el.setAttribute('cy', y)]. *)
Definition setPosition (x y : R) (e : t) : t :=
  mk x y (r e) (fill e) (opacityAttr e) (scale e) (opacity e).

(** [gsap.set(el, { attr: { cx, cy }, scale, opacity })]. *)
Definition gsap_set (x y s o : R) (e : t) : t :=
  mk x y (r e) (fill e) (opacityAttr e) s o.
End Element.

Module Particle.
Record t : Type := mk {
  element : Element.t;
  startX : R;
  startY : R;
  targetX : R;
  targetY : R;
  progress : R;
  speed : R;
  type : PointType;
  formed : bool;
  radius : R;
  originalColor : string;
  floatPhase : R;
  floatSpeed : R;
  floatAmplitude : R;
  mouseOffsetX : R;
  mouseOffsetY : R;
  originalTargetX : R;
  originalTargetY : R
}.

Definition set_element (e : Element.t) (p : t) : t :=
  mk e (startX p) (startY p) (targetX p) (targetY p) (progress p) (speed p)
     (type p) (formed p) (radius p) (originalColor p) (floatPhase p)
     (floatSpeed p) (floatAmplitude p) (mouseOffsetX p) (mouseOffsetY p)
     (originalTargetX p) (originalTargetY p).

Definition set_progress (v : R) (p : t) : t :=
  mk (element p) (startX p) (startY p) (targetX p) (targetY p) v (speed p)
     (type p) (formed p) (radius p) (originalColor p) (floatPhase p)
     (floatSpeed p) (floatAmplitude p) (mouseOffsetX p) (mouseOffsetY p)
     (originalTargetX p) (originalTargetY p).

Definition set_formed (b : bool) (p : t) : t :=
  mk (element p) (startX p) (startY p) (targetX p) (targetY p) (progress p)
     (speed p) (type p) b (radius p) (originalColor p) (floatPhase p)
     (floatSpeed p) (floatAmplitude p) (mouseOffsetX p) (mouseOffsetY p)
     (originalTargetX p) (originalTargetY p).

Definition set_start (x y : R) (p : t) : t :=
  mk (element p) x y (targetX p) (targetY p) (progress p) (speed p)
     (type p) (formed p) (radius p) (originalColor p) (floatPhase p)
     (floatSpeed p) (floatAmplitude p) (mouseOffsetX p) (mouseOffsetY p)
     (originalTargetX p) (originalTargetY p).

Definition set_target (x y : R) (p : t) : t :=
  mk (element p) (startX p) (startY p) x y (progress p) (speed p)
     (type p) (formed p) (radius p) (originalColor p) (floatPhase p)
     (floatSpeed p) (floatAmplitude p) (mouseOffsetX p) (mouseOffsetY p)
     (originalTargetX p) (originalTargetY p).

Definition set_mouseOffset (x y : R) (p : t) : t :=
  mk (element p) (startX p) (startY p) (targetX p) (targetY p) (progress p)
     (speed p) (type p) (formed p) (radius p) (originalColor p) (floatPhase p)
     (floatSpeed p) (floatAmplitude p) x y
     (originalTargetX p) (originalTargetY p).
End Particle.

(** ** Per-particle updates *)

Module Motion.
Import JS.

Definition easeOutExpo (t : R) : R :=
  if eqb t 1 then 1 else 1 - Math_pow2 (-10 * t).

(** The point at which [updateParticlePosition] draws the particle. *)
Definition curvePoint (p : Particle.t) : R * R :=
  let progress := Particle.progress p in
  let easeProgress := easeOutExpo progress in
  let currentX :=
    Particle.startX p + (Particle.targetX p - Particle.startX p) * easeProgress in
  let currentY :=
    Particle.startY p + (Particle.targetY p - Particle.startY p) * easeProgress in
  let pathCurve := sin (progress * PI) * 20 in
  let curveX := currentX + pathCurve * cos (progress * PI * 2) in
  let curveY := currentY + pathCurve * 0.5 * sin (progress * PI * 3) in
  (curveX, curveY).

Definition updateParticlePosition (p : Particle.t) : Particle.t :=
  let (curveX, curveY) := curvePoint p in
  let p :=
    Particle.set_element
      (Element.gsap_set curveX curveY
         (0.7 + Particle.progress p * 0.5) (0.4 + Particle.progress p * 0.5)
         (Particle.element p)) p in
  if gtb (Particle.progress p) 0.95 && negb (Particle.formed p)
  then Particle.set_formed true p
  else p.

(** The idle drift of a particle at time [time] (seconds). *)
Definition idleOffsetX (time : R) (p : Particle.t) : R :=
  sin (time * Particle.floatSpeed p + Particle.floatPhase p)
  * Particle.floatAmplitude p.

Definition idleOffsetY (time : R) (p : Particle.t) : R :=
  cos (time * Particle.floatSpeed p + Particle.floatPhase p)
  * Particle.floatAmplitude p * 0.6.

(** The body of the [forEach] of [updateFloating]. *)
Definition floatParticle (time : R) (p : Particle.t) : Particle.t :=
  if negb (Particle.formed p) then p
  else
    let offsetX := idleOffsetX time p in
    let offsetY := idleOffsetY time p in
    let totalX := Particle.targetX p + offsetX + Particle.mouseOffsetX p in
    let totalY := Particle.targetY p + offsetY + Particle.mouseOffsetY p in
    let p := Particle.set_element
               (Element.setPosition totalX totalY (Particle.element p)) p in
    Particle.set_mouseOffset (Particle.mouseOffsetX p * 0.92)
                             (Particle.mouseOffsetY p * 0.92) p.

(** [updateFloating], on the particle array; [time] is [Date.now() / 1000]. *)
Definition updateFloating (time : R) (ps : list Particle.t) : list Particle.t :=
  map (floatParticle time) ps.

(** The body of the [forEach] of [handleMouseMove] for one particle; the
    option is the [scale] of the pulse tween started on its circle. *)
Definition attractParticle (win : Window) (mouseX mouseY : R) (p : Particle.t)
    : Particle.t * option R :=
  if negb (Particle.formed p) then (p, None)
  else
    let butterflyCenterX := innerWidth win / 2 in
    let butterflyCenterY := innerHeight win / 2 - 50 in
    let dx := mouseX - Particle.targetX p in
    let dy := mouseY - Particle.targetY p in
    let distance := sqrt (dx * dx + dy * dy) in
    if ltb distance 120 then
      let force := Rmax 0 ((120 - distance) / 120) in
      let toCenterX := butterflyCenterX - Particle.targetX p in
      let toCenterY := butterflyCenterY - Particle.targetY p in
      let centerDist := sqrt (toCenterX * toCenterX + toCenterY * toCenterY) in
      let divisor := if eqb centerDist 0 then 1 else centerDist in
      let centerDirX := toCenterX / divisor in
      let centerDirY := toCenterY / divisor in
      (Particle.set_mouseOffset
         (- dx * force * 15 + centerDirX * force * 6)
         (- dy * force * 15 + centerDirY * force * 6) p, Some 1.2)
    else (p, None).

(** The body of the [forEach] of [createRippleEffect] for one particle;
    the option is the [scale] of the pulse tween started on its circle. *)
Definition rippleParticle (x y : R) (p : Particle.t) : Particle.t * option R :=
  if Particle.formed p then
    let dx := x - Particle.targetX p in
    let dy := y - Particle.targetY p in
    let distance := sqrt (dx * dx + dy * dy) in
    if ltb distance 100 then
      let force := (100 - distance) / 100 in
      (Particle.set_mouseOffset (- dx * force * 25) (- dy * force * 25) p,
       Some (1 + force * 0.6))
    else (p, None)
  else (p, None).

End Motion.

(** ** The component *)

Module System.
Import JS.

(** A ripple ring appended to the SVG surface. *)
Record Ripple : Type := {
  ripple_cx : R;
  ripple_cy : R
}.

(** The SVG surface: its bounding rectangle's corner, the size attributes
    set by the canvas effect, and the ripple rings appended to it.  The
    particle circles appended to it are the [element]s of the particles. *)
Record Svg : Type := {
  left : R;
  top : R;
  size : option (R * R);
  ripples : list Ripple
}.

Inductive Animation : Type :=
| FormationTimeline (batches : list (list nat))
    (* [animateFormation]: one tween per batch of particle indices, and
       the tween of the formation progress *)
| ScatterTimeline (moves : list (R * R * R))
    (* [resetAnimation]: per particle, the edge point and the duration *)
| RippleTween (x y : R)
| PulseTween (particle : nat) (scale duration : R).

Record t : Type := mk {
  (* props *)
  particleCount : Z;
  isTransformed : bool;
  (* environment: the window, and the draws of [Math.random()] *)
  window : Window;
  random : nat -> R;
  randomCalls : nat;
  (* refs *)
  svgRef : option Svg;
  mouseRef : R * R;
  lastTimeRef : R;
  (* state *)
  particles : list Particle.t;
  butterflyPoints : list ButterflyPoint.t;
  isFormed : bool;
  formationProgress : R;
  fps : Z;
  frameCount : Z;
  isResetting : bool;
  (* the GSAP animations started so far, in order *)
  animations : list Animation
}.

Definition set_randomCalls (v : nat) (st : t) : t :=
  mk (particleCount st) (isTransformed st) (window st) (random st) v
     (svgRef st) (mouseRef st) (lastTimeRef st) (particles st)
     (butterflyPoints st) (isFormed st) (formationProgress st) (fps st)
     (frameCount st) (isResetting st) (animations st).

Definition set_svgRef (v : option Svg) (st : t) : t :=
  mk (particleCount st) (isTransformed st) (window st) (random st)
     (randomCalls st) v (mouseRef st) (lastTimeRef st) (particles st)
     (butterflyPoints st) (isFormed st) (formationProgress st) (fps st)
     (frameCount st) (isResetting st) (animations st).

Definition set_mouseRef (v : R * R) (st : t) : t :=
  mk (particleCount st) (isTransformed st) (window st) (random st)
     (randomCalls st) (svgRef st) v (lastTimeRef st) (particles st)
     (butterflyPoints st) (isFormed st) (formationProgress st) (fps st)
     (frameCount st) (isResetting st) (animations st).

Definition set_lastTimeRef (v : R) (st : t) : t :=
  mk (particleCount st) (isTransformed st) (window st) (random st)
     (randomCalls st) (svgRef st) (mouseRef st) v (particles st)
     (butterflyPoints st) (isFormed st) (formationProgress st) (fps st)
     (frameCount st) (isResetting st) (animations st).

Definition set_particles (v : list Particle.t) (st : t) : t :=
  mk (particleCount st) (isTransformed st) (window st) (random st)
     (randomCalls st) (svgRef st) (mouseRef st) (lastTimeRef st) v
     (butterflyPoints st) (isFormed st) (formationProgress st) (fps st)
     (frameCount st) (isResetting st) (animations st).

Definition set_butterflyPoints (v : list ButterflyPoint.t) (st : t) : t :=
  mk (particleCount st) (isTransformed st) (window st) (random st)
     (randomCalls st) (svgRef st) (mouseRef st) (lastTimeRef st)
     (particles st) v (isFormed st) (formationProgress st) (fps st)
     (frameCount st) (isResetting st) (animations st).

Definition set_isFormed (v : bool) (st : t) : t :=
  mk (particleCount st) (isTransformed st) (window st) (random st)
     (randomCalls st) (svgRef st) (mouseRef st) (lastTimeRef st)
     (particles st) (butterflyPoints st) v (formationProgress st) (fps st)
     (frameCount st) (isResetting st) (animations st).

Definition set_formationProgress (v : R) (st : t) : t :=
  mk (particleCount st) (isTransformed st) (window st) (random st)
     (randomCalls st) (svgRef st) (mouseRef st) (lastTimeRef st)
     (particles st) (butterflyPoints st) (isFormed st) v (fps st)
     (frameCount st) (isResetting st) (animations st).

Definition set_fps (v : Z) (st : t) : t :=
  mk (particleCount st) (isTransformed st) (window st) (random st)
     (randomCalls st) (svgRef st) (mouseRef st) (lastTimeRef st)
     (particles st) (butterflyPoints st) (isFormed st) (formationProgress st) v (frameCount st) (isResetting st) (animations st).

Definition set_frameCount (v : Z) (st : t) : t :=
  mk (particleCount st) (isTransformed st) (window st) (random st)
     (randomCalls st) (svgRef st) (mouseRef st) (lastTimeRef st)
     (particles st) (butterflyPoints st) (isFormed st) (formationProgress st) (fps st) v (isResetting st) (animations st).

Definition set_isResetting (v : bool) (st : t) : t :=
  mk (particleCount st) (isTransformed st) (window st) (random st)
     (randomCalls st) (svgRef st) (mouseRef st) (lastTimeRef st)
     (particles st) (butterflyPoints st) (isFormed st) (formationProgress st) (fps st) (frameCount st) v (animations st).

Definition set_animations (v : list Animation) (st : t) : t :=
  mk (particleCount st) (isTransformed st) (window st) (random st)
     (randomCalls st) (svgRef st) (mouseRef st) (lastTimeRef st)
     (particles st) (butterflyPoints st) (isFormed st) (formationProgress st) (fps st) (frameCount st) (isResetting st) v.

(** [Math.round]. *)
Definition Math_round (v : R) : Z := Math_floor (v + 0.5).

(** [Math.random()]: the next draw of the stream. *)
Definition Math_random (st : t) : R * t :=
  (random st (randomCalls st), set_randomCalls (S (randomCalls st)) st).

Definition getEdgePosition (st : t) : (R * R) * t :=
  let (u, st) := Math_random st in
  let side := Math_floor (u * 4) in
  let padding := 150 in
  let win := window st in
  if (side =? 0)%Z then
    let (v, st) := Math_random st in ((v * innerWidth win, - padding), st)
  else if (side =? 1)%Z then
    let (v, st) := Math_random st in
    ((innerWidth win + padding, v * innerHeight win), st)
  else if (side =? 2)%Z then
    let (v, st) := Math_random st in
    ((v * innerWidth win, innerHeight win + padding), st)
  else if (side =? 3)%Z then
    let (v, st) := Math_random st in ((- padding, v * innerHeight win), st)
  else ((0, 0), st).

(** The body of the [forEach] of [createParticleSystem]. *)
Definition createParticle (acc : list Particle.t * t) (point : ButterflyPoint.t)
    : list Particle.t * t :=
  let (newParticles, st) := acc in
  let (u, st) := Math_random st in
  let radius := u * 1.5 + 1.5 in
  let (startPos, st) := getEdgePosition st in
  let (u, st) := Math_random st in
  let speed := 0.015 + u * 0.02 in
  let (u, st) := Math_random st in
  let floatPhase := u * PI * 2 in
  let (u, st) := Math_random st in
  let floatSpeed := 0.5 + u * 0.5 in
  let circle :=
    Element.mk (fst startPos) (snd startPos) radius
      (ButterflyPoint.color point) 0.5 0.6 0.3 in
  let particle :=
    Particle.mk circle (fst startPos) (snd startPos)
      (ButterflyPoint.x point) (ButterflyPoint.y point) 0 speed
      (ButterflyPoint.type point) false radius (ButterflyPoint.color point)
      floatPhase floatSpeed
      (if PointType_eqb (ButterflyPoint.type point) body then 2 else 4)
      0 0 (ButterflyPoint.x point) (ButterflyPoint.y point) in
  (newParticles ++ [particle], st).

(** [createParticleSystem]: [None] is the early [return] taken when the
    SVG reference is missing. *)
Definition createParticleSystem (st : t) : option (list Particle.t) * t :=
  match svgRef st with
  | None => (None, st)
  | Some _ =>
      let newButterflyPoints :=
        Shape.generateButterflyShape (window st) (particleCount st) in
      let st := set_butterflyPoints newButterflyPoints st in
      let (newParticles, st) :=
        fold_left createParticle newButterflyPoints ([], st) in
      (Some newParticles, set_particles newParticles st)
  end.

(** The index slices [i, i + 50) of an array of [n] particles. *)
Definition batchSize : nat := 50.

Definition batches (n : nat) : list (list nat) :=
  map (fun k => seq (k * batchSize) (Nat.min batchSize (n - k * batchSize)))
      (seq 0 ((n + (batchSize - 1)) / batchSize)).

(** [animateFormation]: the array passed is the component's particle
    array at both call sites, so the tweens address particles by index. *)
Definition animateFormation (particlesToAnimate : list Particle.t) (st : t) : t :=
  let st := set_isFormed false st in
  let st := set_formationProgress 0 st in
  set_animations
    (animations st ++ [FormationTimeline (batches (length particlesToAnimate))])
    st.

(** The pulse tweens started by a [forEach] that yields, per particle,
    the scale of its pulse if it starts one. *)
Definition pulseTweens (duration : R) (scales : list (option R)) : list Animation :=
  concat
    (mapi (fun i s =>
             match s with
             | Some scale => [PulseTween i scale duration]
             | None => []
             end)
          scales).

Definition handleMouseMove (clientX clientY : R) (st : t) : t :=
  match svgRef st with
  | None => st
  | Some rect =>
      let mouseX := clientX - left rect in
      let mouseY := clientY - top rect in
      let st := set_mouseRef (mouseX, mouseY) st in
      if isFormed st then
        let moved :=
          map (Motion.attractParticle (window st) mouseX mouseY) (particles st) in
        let st := set_particles (map fst moved) st in
        set_animations (animations st ++ pulseTweens 0.3 (map snd moved)) st
      else st
  end.

Definition createRippleEffect (x y : R) (st : t) : t :=
  match svgRef st with
  | None => st
  | Some svg =>
      let ripple := {| ripple_cx := x; ripple_cy := y |} in
      let st :=
        set_svgRef
          (Some {| left := left svg; top := top svg; size := size svg;
                   ripples := ripples svg ++ [ripple] |}) st in
      let st := set_animations (animations st ++ [RippleTween x y]) st in
      let pushed := map (Motion.rippleParticle x y) (particles st) in
      let st := set_particles (map fst pushed) st in
      set_animations (animations st ++ pulseTweens 0.8 (map snd pushed)) st
  end.

Definition handleClick (clientX clientY : R) (st : t) : t :=
  match svgRef st with
  | None => st
  | Some rect =>
      if negb (isFormed st) then st
      else
        let clickX := clientX - left rect in
        let clickY := clientY - top rect in
        createRippleEffect clickX clickY st
  end.

(** One turn of the animation loop; [now] is [performance.now()] and
    [time] is [Date.now() / 1000]. *)
Definition animate (now time : R) (st : t) : t :=
  let seen := frameCount st in
  let st := set_frameCount (frameCount st + 1)%Z st in
  let st :=
    if (Z.rem seen 10 =? 0)%Z then
      let st :=
        if eqb (lastTimeRef st) 0 then st
        else set_fps (Math_round (1000 / (now - lastTimeRef st))) st in
      set_lastTimeRef now st
    else st in
  if isFormed st && negb (isResetting st)
  then set_particles (Motion.updateFloating time (particles st)) st
  else st.

(** The initialisation effect. *)
Definition initEffect (st : t) : t :=
  match createParticleSystem st with
  | (Some newParticles, st) => animateFormation newParticles st
  | (None, st) => st
  end.

(** The canvas effect. *)
Definition setupCanvas (st : t) : t :=
  match svgRef st with
  | None => st
  | Some svg =>
      set_svgRef
        (Some {| left := left svg; top := top svg;
                 size := Some (innerWidth (window st), innerHeight (window st));
                 ripples := ripples svg |}) st
  end.

(** The first render: the initial values of the state hooks and refs. *)
Definition firstRender (win : Window) (draws : nat -> R)
    (count : Z) (transformed : bool) : t :=
  mk count transformed win draws 0 None (0, 0) 0 [] [] false 0 60 0 false [].

(** Mounting: React attaches the [svg] element to [svgRef], then runs the
    effects in the order they are declared. *)
Definition mount (win : Window) (draws : nat -> R) (rectLeft rectTop now time : R)
    (count : Z) (transformed : bool) : t :=
  let st := firstRender win draws count transformed in
  let st :=
    set_svgRef
      (Some {| left := rectLeft; top := rectTop; size := None; ripples := [] |})
      st in
  setupCanvas (initEffect (animate now time st)).

(** The body of the [forEach] of the scatter timeline's [onComplete]. *)
Definition rescatter (acc : list Particle.t * t) (p : Particle.t)
    : list Particle.t * t :=
  let (done, st) := acc in
  let p := Particle.set_formed false p in
  let p := Particle.set_progress 0 p in
  let (newStart, st) := getEdgePosition st in
  let p := Particle.set_start (fst newStart) (snd newStart) p in
  let p := Particle.set_target (Particle.originalTargetX p)
             (Particle.originalTargetY p) p in
  let p := Particle.set_mouseOffset 0 0 p in
  (done ++ [p], st).

(** The [onComplete] callback of the scatter timeline. *)
Definition scatterOnComplete (st : t) : t :=
  let (ps, st) := fold_left rescatter (particles st) ([], st) in
  let st := set_particles ps st in
  let st := animateFormation (particles st) st in
  set_isResetting false st.

(** The body of the [forEach] of [resetAnimation] that fills the scatter
    timeline. *)
Definition scatterMove (acc : list (R * R * R) * t) (p : Particle.t)
    : list (R * R * R) * t :=
  let (moves, st) := acc in
  let (edgePos, st) := getEdgePosition st in
  let (u, st) := Math_random st in
  (moves ++ [(fst edgePos, snd edgePos, 2 + u * 0.5)], st).

Definition resetAnimation (st : t) : t :=
  if isResetting st then st
  else
    let st := set_isResetting true st in
    let st := set_isFormed false st in
    let st := set_formationProgress 0 st in
    let (moves, st) := fold_left scatterMove (particles st) ([], st) in
    set_animations (animations st ++ [ScatterTimeline moves]) st.

(** The imperative handle. *)
Definition transformToButterly (st : t) : t := st.

Definition resetParticles (st : t) : t := resetAnimation st.

Definition getStats (st : t) : Z * Z * Z :=
  (Z.of_nat (length (filter Particle.formed (particles st))),
   Math_round (formationProgress st * 100),
   fps st).

(** *** What GSAP does with the timelines *)

(** A tick of one batch tween of the formation timeline: GSAP writes the
    tweened [progress] of every particle of the batch, then calls the
    tween's [onUpdate]. *)
Definition tweenParticle (batch : list nat) (value : nat -> R)
    (i : nat) (p : Particle.t) : Particle.t :=
  if existsb (Nat.eqb i) batch then
    let p := Particle.set_progress (value i) p in
    if gtb (Particle.progress p) 0 then Motion.updateParticlePosition p else p
  else p.

Definition formationUpdate (batch : list nat) (value : nat -> R) (st : t) : t :=
  set_particles (mapi (tweenParticle batch value) (particles st)) st.

(** The end of the scatter timeline: every circle has reached the edge
    point of its tween, and [onComplete] runs. *)
Definition scatterEnd (moves : list (R * R * R)) (ps : list Particle.t)
    : list Particle.t :=
  mapi (fun i p =>
          match nth_error moves i with
          | Some (x, y, _) =>
              Particle.set_element
                (Element.setPosition x y (Particle.element p)) p
          | None => p
          end) ps.

Definition scatterComplete (moves : list (R * R * R)) (st : t) : t :=
  scatterOnComplete (set_particles (scatterEnd moves (particles st)) st).

(** What can happen to a mounted component. *)
Inductive Event : Type :=
| FormationUpdate (batch : list nat) (value : nat -> R)
| FormationProgress (v : R)
| FormationComplete
| Frame (now time : R)
| MouseMove (clientX clientY : R)
| Click (clientX clientY : R)
| TransformToButterly
| ResetParticles
| ScatterComplete (moves : list (R * R * R)).

Definition step (st : t) (e : Event) : t :=
  match e with
  | FormationUpdate batch value => formationUpdate batch value st
  | FormationProgress v => set_formationProgress v st
  | FormationComplete => set_isFormed true st
  | Frame now time => animate now time st
  | MouseMove x y => handleMouseMove x y st
  | Click x y => handleClick x y st
  | TransformToButterly => transformToButterly st
  | ResetParticles => resetParticles st
  | ScatterComplete moves => scatterComplete moves st
  end.

Definition run (events : list Event) (st : t) : t := fold_left step events st.

(** An event of the reset path's completion, the only one that clears
    [formed]. *)
Definition clearsFormed (e : Event) : bool :=
  match e with
  | ScatterComplete _ => true
  | _ => false
  end.

(** The progress GSAP last wrote to particle [i]: after one event, and
    during a run of events. *)
Definition writeOf (i : nat) (last : option R) (e : Event) : option R :=
  match e with
  | FormationUpdate batch value =>
      if existsb (Nat.eqb i) batch then Some (value i) else last
  | _ => last
  end.

Definition lastWrite (events : list Event) (i : nat) : option R :=
  fold_left (writeOf i) events None.

(** A particle drawn at its target, and a particle with the targets of
    another. *)
Definition atTarget (p : Particle.t) : Prop :=
  Element.cx (Particle.element p) = Particle.targetX p /\
  Element.cy (Particle.element p) = Particle.targetY p.

Definition sameTargets (p p' : Particle.t) : Prop :=
  Particle.targetX p' = Particle.targetX p /\
  Particle.targetY p' = Particle.targetY p.

(** The events of a formation run in progress: everything but the
    timeline's completion and the reset path. *)
Definition duringFormation (e : Event) : bool :=
  match e with
  | FormationComplete | ResetParticles | ScatterComplete _ => false
  | _ => true
  end.

(** What the scatter timeline's [onComplete] makes of a particle. *)
Definition resetOf (p p' : Particle.t) : Prop :=
  Particle.formed p' = false /\ Particle.progress p' = 0 /\
  Particle.targetX p' = Particle.originalTargetX p /\
  Particle.targetY p' = Particle.originalTargetY p /\
  Particle.mouseOffsetX p' = 0 /\ Particle.mouseOffsetY p' = 0 /\
  Particle.originalTargetX p' = Particle.originalTargetX p /\
  Particle.originalTargetY p' = Particle.originalTargetY p.

(** A point 150 pixels outside one side of the window. *)
Definition onEdge (win : Window) (pos : R * R) : Prop :=
  let (x, y) := pos in
  (y = -150 /\ 0 <= x < innerWidth win) \/
  (x = innerWidth win + 150 /\ 0 <= y < innerHeight win) \/
  (y = innerHeight win + 150 /\ 0 <= x < innerWidth win) \/
  (x = -150 /\ 0 <= y < innerHeight win).

(** The fields of a particle that are written at creation only. *)
Definition sameIdentity (p p' : Particle.t) : Prop :=
  Particle.type p' = Particle.type p /\
  Particle.radius p' = Particle.radius p /\
  Particle.originalColor p' = Particle.originalColor p /\
  Particle.speed p' = Particle.speed p /\
  Particle.floatPhase p' = Particle.floatPhase p /\
  Particle.floatSpeed p' = Particle.floatSpeed p /\
  Particle.floatAmplitude p' = Particle.floatAmplitude p /\
  Particle.originalTargetX p' = Particle.originalTargetX p /\
  Particle.originalTargetY p' = Particle.originalTargetY p.

(** A particle whose target is its original target. *)
Definition aimed (p : Particle.t) : Prop :=
  Particle.targetX p = Particle.originalTargetX p /\
  Particle.targetY p = Particle.originalTargetY p.

(** A particle as [createParticleSystem] makes it for a shape point. *)
Definition fresh (win : Window) (point : ButterflyPoint.t) (q : Particle.t)
    : Prop :=
  Particle.targetX q = ButterflyPoint.x point /\
  Particle.targetY q = ButterflyPoint.y point /\
  Particle.originalTargetX q = ButterflyPoint.x point /\
  Particle.originalTargetY q = ButterflyPoint.y point /\
  Particle.type q = ButterflyPoint.type point /\
  Particle.originalColor q = ButterflyPoint.color point /\
  Element.fill (Particle.element q) = ButterflyPoint.color point /\
  Particle.progress q = 0 /\ Particle.formed q = false /\
  Particle.mouseOffsetX q = 0 /\ Particle.mouseOffsetY q = 0 /\
  onEdge win (Particle.startX q, Particle.startY q) /\
  Element.cx (Particle.element q) = Particle.startX q /\
  Element.cy (Particle.element q) = Particle.startY q /\
  Element.r (Particle.element q) = Particle.radius q /\
  1.5 <= Particle.radius q < 3 /\
  0.015 <= Particle.speed q < 0.035 /\
  0 <= Particle.floatPhase q < 2 * PI /\
  0.5 <= Particle.floatSpeed q < 1 /\
  Particle.floatAmplitude q
  = (if PointType_eqb (ButterflyPoint.type point) body then 2 else 4).

(** A sequence of animation frames, each with its two clock readings. *)
Definition frames (clocks : list (R * R)) : list Event :=
  map (fun '(now, time) => Frame now time) clocks.

End System.

(** ** The host page *)

Module Index.

(** What the page has asked GSAP and the browser to run later. *)
Inductive Scheduled : Type :=
| ProgressTween        (* the tween of the progress indicator, 0 to 100 *)
| TransformTimeout     (* [setTimeout(..., 2500)] of [handleTransform] *)
| ResetTimeout.        (* [setTimeout(..., 1000)] of [handleReset] *)

Record t : Type := mk {
  isTransformed : bool;
  particleCount : Z;
  transformProgress : R;
  showStats : bool;
  isAnimating : bool;
  fps : Z;
  particleSystemRef : option System.t;
  scheduled : list Scheduled
}.

Definition handleTransform (h : t) : t :=
  if isAnimating h then h
  else
    mk (isTransformed h) (particleCount h) 0 (showStats h) true (fps h)
       (particleSystemRef h)
       (scheduled h ++ [ProgressTween; TransformTimeout]).

(** The callback of [handleTransform]'s timeout. *)
Definition transformTimeout (h : t) : t :=
  mk true (particleCount h) (transformProgress h) (showStats h) false (fps h)
     (particleSystemRef h) (scheduled h).

Definition handleReset (h : t) : t :=
  if isAnimating h then h
  else
    mk (isTransformed h) (particleCount h) 0 (showStats h) true (fps h)
       (option_map System.resetParticles (particleSystemRef h))
       (scheduled h ++ [ResetTimeout]).


(** [String.prototype.toLowerCase] on a key name of ASCII characters. *)
Definition toLowerCase (s : string) : string :=
  string_of_list_ascii
    (map (fun c =>
            let n := nat_of_ascii c in
            if ((65 <=? n) && (n <=? 90))%nat then ascii_of_nat (n + 32) else c)
         (list_ascii_of_string s)).

(** [handleKeyPress], given [event.code] and [event.key]. *)
Definition handleKeyPress (code key : string) (h : t) : t :=
  if String.eqb code "Space" then
    if negb (isTransformed h) then handleTransform h else h
  else if String.eqb (toLowerCase key) "r" then handleReset h
  else h.

(** The callback of [handleReset]'s timeout. *)
Definition resetTimeout (h : t) : t :=
  mk false (particleCount h) (transformProgress h) (showStats h) false (fps h)
     (particleSystemRef h) (scheduled h).

End Index.

(** ** A small configuration

    One formed upper-wing particle pushed 30 pixels off its target, in a
    mounted component whose formation has completed. *)

Module Sample.

Definition win : Window := {| innerWidth := 1920; innerHeight := 1080 |}.

Definition particle : Particle.t :=
  Particle.mk (Element.mk 1000 500 2 "#FFD700" 0.5 1.2 0.9)
    (-150) 300 1000 500 1 0.02 upperWing true 2 "#FFD700" 0 1 4 30 (-30)
    1000 500.

Definition system : System.t :=
  System.mk 1 false win (fun _ => 0) 0
    (Some {| System.left := 0; System.top := 0;
             System.size := Some (1920, 1080); System.ripples := [] |})
    (0, 0) 0 [particle] [] true 1 60 0 false [].

(** The same component while a reset is in flight. *)
Definition resetting : System.t := System.set_isResetting true system.

(** The same component before its formation has completed. *)
Definition forming : System.t := System.set_isFormed false system.

(** The host page while a transformation is animating. *)
Definition page : Index.t :=
  Index.mk false 1500 0 true true 60 (Some system)
    [Index.ProgressTween; Index.TransformTimeout].

End Sample.

(** * Properties *)

(** ** Arithmetic *)

Lemma Math_floor_quotient (n num den : Z) (c : R) :
  (0 < den)%Z -> c * IZR den = IZR num ->
  JS.Math_floor (IZR n * c) = (num * n / den)%Z.
Proof.
  intros Hden Hc. unfold JS.Math_floor. symmetry. apply Int_part_spec.
  pose proof (Z.mul_div_le (num * n) den Hden) as Hle.
  pose proof (Z.mul_succ_div_gt (num * n) den Hden) as Hgt.
  apply IZR_le in Hle. apply IZR_lt in Hgt.
  rewrite Z.mul_succ_r in Hgt.
  rewrite !mult_IZR in Hle. rewrite plus_IZR, !mult_IZR in Hgt.
  assert (Hd : 0 < IZR den) by (apply IZR_lt; exact Hden).
  set (q := IZR (num * n / den)) in *.
  assert (Hn : IZR n * c * IZR den = IZR num * IZR n) by (rewrite <- Hc; ring).
  split.
  - apply Rmult_lt_reg_r with (IZR den); [exact Hd|]. nra.
  - apply Rmult_le_reg_r with (IZR den); [exact Hd|]. nra.
Qed.

Lemma Math_floor_15 (n : Z) : JS.Math_floor (IZR n * 0.15) = Shape.bodyBudget n.
Proof. apply (Math_floor_quotient n 15 100); [lia | lra]. Qed.

Lemma Math_floor_05 (n : Z) : JS.Math_floor (IZR n * 0.05) = Shape.antennaBudget n.
Proof. apply (Math_floor_quotient n 5 100); [lia | lra]. Qed.

Lemma Math_floor_60 (n : Z) : JS.Math_floor (IZR n * 0.6) = (6 * n / 10)%Z.
Proof. apply (Math_floor_quotient n 6 10); [lia | lra]. Qed.

(** X26.  The binary64 products of the source floor to the same
    integers as the exact products, for every count up to 4000: the
    rounding of [n * 0.15], [n * 0.05] and [n * 0.6] never crosses an
    integer. *)
Lemma binary64_agrees :
  forallb (Binary64.agrees 15 100) (JS.range 4001) = true /\
  forallb (Binary64.agrees 5 100) (JS.range 4001) = true /\
  forallb (Binary64.agrees 6 10) (JS.range 4001) = true.
Proof. split; [|split]; vm_compute; reflexivity. Qed.

(** ** Loops *)

(** Linear integer arithmetic with floored quotients. *)
Ltac zdiv := Z.to_euclidean_division_equations; lia.

Lemma range_length (n : Z) : Z.of_nat (length (JS.range n)) = Z.max 0 n.
Proof. unfold JS.range. rewrite length_map, length_seq. lia. Qed.

Lemma range_In (n i : Z) : In i (JS.range n) <-> (0 <= i < n)%Z.
Proof.
  unfold JS.range. rewrite in_map_iff. split.
  - intros [k [<- Hk]]. apply in_seq in Hk. lia.
  - intros H. exists (Z.to_nat i). split; [lia|]. apply in_seq. lia.
Qed.

(** The indices of an [i < n / 2] loop are the [i >= 0] with [i < n / 2]. *)
Lemma half_range_In (n i : Z) :
  In i (JS.half_range n) <-> (0 <= i)%Z /\ IZR i < IZR n / 2.
Proof.
  unfold JS.half_range. rewrite range_In. split.
  - intros [H0 H]. split; [exact H0|].
    assert (2 * i < n)%Z as Hlt by zdiv. apply IZR_lt in Hlt.
    rewrite mult_IZR in Hlt. lra.
  - intros [H0 H]. split; [exact H0|].
    assert (2 * i < n)%Z as Hlt.
    { apply lt_IZR. rewrite mult_IZR. lra. }
    zdiv.
Qed.

Lemma half_range_length (n : Z) :
  (2 * Z.of_nat (length (JS.half_range n)))%Z = Shape.pairCount n.
Proof. unfold JS.half_range, Shape.pairCount. rewrite range_length. reflexivity. Qed.

Lemma mapi_from_length {A B : Type} (f : nat -> A -> B) (l : list A) (k : nat) :
  length (JS.mapi_from f k l) = length l.
Proof. revert k. induction l as [|a l IH]; intros k; simpl; [|rewrite IH]; reflexivity. Qed.

Lemma mapi_from_nth_error {A B : Type} (f : nat -> A -> B) (l : list A) (k i : nat) :
  nth_error (JS.mapi_from f k l) i = option_map (f (k + i)%nat) (nth_error l i).
Proof.
  revert k i. induction l as [|a l IH]; intros k [|i]; simpl; try reflexivity.
  - rewrite Nat.add_0_r. reflexivity.
  - rewrite IH. f_equal. f_equal. lia.
Qed.

Lemma mapi_nth_error {A B : Type} (f : nat -> A -> B) (l : list A) (i : nat) :
  nth_error (JS.mapi f l) i = option_map (f i) (nth_error l i).
Proof. unfold JS.mapi. rewrite mapi_from_nth_error. reflexivity. Qed.

Lemma mapi_length {A B : Type} (f : nat -> A -> B) (l : list A) :
  length (JS.mapi f l) = length l.
Proof. apply mapi_from_length. Qed.

(** ** The shape generator's loops *)

Section ShapeLoops.
Import Shape.

Variables centerX centerY scale : R.

Lemma getWingColor_well_formed (x y : R) :
  well_formed_color (getWingColor x y centerX centerY) = true.
Proof.
  unfold getWingColor.
  destruct (JS.ltb _ 8); [destruct (Z.eqb _ 0)|]; reflexivity.
Qed.

(** One iteration of the body loop adds at most two body points, never
    beyond [bodyParticles], and divides by [bodyParticles - 1]. *)
Lemma bodyStep_spec (bodyParticles : Z) (g : Gen) (i : Z) :
  let n := Z.of_nat (length (points g)) in
  exists l,
    points (bodyStep centerX centerY scale bodyParticles g i) = points g ++ l /\
    emitted body l /\
    (n + Z.of_nat (length l) = Z.max n (Z.min (n + 2) bodyParticles))%Z /\
    divisors (bodyStep centerX centerY scale bodyParticles g i)
    = divisors g ++ [IZR bodyParticles - 1].
Proof.
  intros n. unfold bodyStep. change (JS.range 2) with [0; 1]%Z.
  cbn [fold_left dividing_by points divisors]. fold n.
  destruct (Z.ltb_spec n bodyParticles) as [H1|H1].
  - cbn [push dividing_by points divisors]. rewrite length_app. cbn [length].
    destruct (Z.ltb_spec (Z.of_nat (length (points g) + 1)) bodyParticles)
      as [H2|H2]; cbn [push dividing_by points divisors].
    + eexists [_; _]. rewrite <- app_assoc. split; [reflexivity|].
      split; [repeat constructor|]. split; [cbn [length]; lia | reflexivity].
    + eexists [_]. split; [reflexivity|].
      split; [repeat constructor|]. split; [cbn [length]; lia | reflexivity].
  - assert (E : (n <? bodyParticles)%Z = false) by (apply Z.ltb_ge; exact H1).
    cbn [dividing_by points]. fold n. rewrite E. cbn [dividing_by points divisors].
    exists []. rewrite app_nil_r. split; [reflexivity|].
    split; [constructor|]. split; [cbn [length]; lia | reflexivity].
Qed.

Lemma body_loop (bodyParticles : Z) (l : list Z) (g : Gen) :
  let n := Z.of_nat (length (points g)) in
  exists l',
    points (fold_left (bodyStep centerX centerY scale bodyParticles) l g)
    = points g ++ l' /\
    emitted body l' /\
    (n + Z.of_nat (length l')
     = Z.max n (Z.min (n + 2 * Z.of_nat (length l)) bodyParticles))%Z /\
    divisors (fold_left (bodyStep centerX centerY scale bodyParticles) l g)
    = divisors g ++ repeat (IZR bodyParticles - 1) (length l).
Proof.
  revert g. induction l as [|i l IH]; intros g n.
  - exists []. cbn. rewrite !app_nil_r. repeat split; [constructor | lia].
  - cbn [fold_left].
    destruct (bodyStep_spec bodyParticles g i) as (l1 & Hp1 & He1 & Hn1 & Hd1).
    destruct (IH (bodyStep centerX centerY scale bodyParticles g i))
      as (l2 & Hp2 & He2 & Hn2 & Hd2).
    exists (l1 ++ l2). rewrite Hp2, Hd2, Hp1, Hd1, <- !app_assoc.
    split; [reflexivity|]. split; [apply Forall_app; split; assumption|].
    split; [|reflexivity].
    rewrite Hp1, length_app in Hn2. rewrite length_app. fold n in Hn1.
    cbn [length]. fold n in Hn2. lia.
Qed.

(** A loop whose every iteration pushes one point and divides by [d]. *)
Lemma push_loop (step : Gen -> Z -> Gen) (pt : Z -> ButterflyPoint.t) (d : R)
    (l : list Z) (g : Gen) :
  (forall g i, step g i = push (pt i) (dividing_by d g)) ->
  points (fold_left step l g) = points g ++ map pt l /\
  divisors (fold_left step l g) = divisors g ++ repeat d (length l).
Proof.
  intros Hstep. revert g. induction l as [|i l IH]; intros g.
  - cbn. rewrite !app_nil_r. split; reflexivity.
  - cbn [fold_left]. destruct (IH (step g i)) as [Hp Hd].
    rewrite Hp, Hd, Hstep. cbn. rewrite <- !app_assoc. split; reflexivity.
Qed.

Lemma both_sides_spec (step : Z -> Gen -> Z -> Gen)
    (pt : Z -> Z -> ButterflyPoint.t) (d : R) (n : Z) (g : Gen) :
  (forall side g i, step side g i = push (pt side i) (dividing_by d g)) ->
  points (both_sides step n g)
  = points g ++ map (pt (-1)%Z) (JS.half_range n) ++ map (pt 1%Z) (JS.half_range n) /\
  divisors (both_sides step n g)
  = divisors g ++ repeat d (length (JS.half_range n) + length (JS.half_range n)).
Proof.
  intros Hstep. unfold both_sides, JS.sides. cbn [fold_left].
  destruct (push_loop (step (-1)%Z) (pt (-1)%Z) d (JS.half_range n) g
              (Hstep (-1)%Z)) as [Hp1 Hd1].
  destruct (push_loop (step 1%Z) (pt 1%Z) d (JS.half_range n)
              (fold_left (step (-1)%Z) (JS.half_range n) g) (Hstep 1%Z))
    as [Hp2 Hd2].
  rewrite Hp2, Hd2, Hp1, Hd1, <- !app_assoc, repeat_app. split; reflexivity.
Qed.

Lemma emitted_map (ty : PointType) (pt : Z -> ButterflyPoint.t) (l : list Z) :
  (forall i, ButterflyPoint.type (pt i) = ty /\
             well_formed_color (ButterflyPoint.color (pt i)) = true) ->
  emitted ty (map pt l).
Proof.
  intros H. unfold emitted. apply Forall_forall. intros p Hin.
  apply in_map_iff in Hin. destruct Hin as [i [<- _]]. apply H.
Qed.

(** What a pair of [i < n / 2] loops emits. *)
Lemma both_sides_emitted (ty : PointType) (step : Z -> Gen -> Z -> Gen)
    (pt : Z -> Z -> ButterflyPoint.t) (d : R) (n : Z) (g : Gen) :
  (forall side g i, step side g i = push (pt side i) (dividing_by d g)) ->
  (forall side i, ButterflyPoint.type (pt side i) = ty /\
                  well_formed_color (ButterflyPoint.color (pt side i)) = true) ->
  exists l,
    points (both_sides step n g) = points g ++ l /\
    emitted ty l /\
    Z.of_nat (length l) = pairCount n /\
    divisors (both_sides step n g)
    = divisors g ++ repeat d (Z.to_nat (pairCount n)).
Proof.
  intros Hstep Hty.
  destruct (both_sides_spec step pt d n g Hstep) as [Hp Hd].
  exists (map (pt (-1)%Z) (JS.half_range n) ++ map (pt 1%Z) (JS.half_range n)).
  split; [exact Hp|]. split.
  - apply Forall_app. split; apply emitted_map; intros i; apply Hty.
  - rewrite length_app, !length_map, Hd, <- half_range_length.
    split; [lia|]. do 2 f_equal. lia.
Qed.

End ShapeLoops.

(** ** The shape as four segments *)

Lemma generateWings_spec (g : Shape.Gen) (centerX centerY scale : R) (w : Z) :
  let u := (6 * w / 10)%Z in
  let l := (w - u)%Z in
  exists lu ll,
    Shape.points (Shape.generateWings g centerX centerY scale w)
    = Shape.points g ++ lu ++ ll /\
    Shape.emitted upperWing lu /\ Z.of_nat (length lu) = Shape.pairCount u /\
    Shape.emitted lowerWing ll /\ Z.of_nat (length ll) = Shape.pairCount l /\
    Shape.divisors (Shape.generateWings g centerX centerY scale w)
    = Shape.divisors g
      ++ repeat (IZR u / 2) (Z.to_nat (Shape.pairCount u))
      ++ repeat (IZR l / 2) (Z.to_nat (Shape.pairCount l)).
Proof.
  intros u l. unfold Shape.generateWings. cbv zeta.
  rewrite Math_floor_60. fold u. fold l.
  edestruct (both_sides_emitted upperWing
               (Shape.upperWingStep centerX centerY scale u))
    as (lu & Hpu & Heu & Hnu & Hdu).
  { intros side g0 i. unfold Shape.upperWingStep. cbv zeta. reflexivity. }
  { intros side i. split; [reflexivity | apply getWingColor_well_formed]. }
  edestruct (both_sides_emitted lowerWing
               (Shape.lowerWingStep centerX centerY scale l))
    as (ll & Hpl & Hel & Hnl & Hdl).
  { intros side g0 i. unfold Shape.lowerWingStep. cbv zeta. reflexivity. }
  { intros side i. split; [reflexivity | apply getWingColor_well_formed]. }
  exists lu, ll. rewrite Hpl, Hdl, Hpu, Hdu, <- !app_assoc.
  repeat (split; [eassumption || reflexivity|]). reflexivity.
Qed.

(** The generator emits the body points, then the antenna points, then
    the upper wing points, then the lower wing points, in the numbers
    given by the particle count alone; every division by a computed
    quantity has one of four divisors. *)
Lemma generate_spec (win : Window) (n : Z) :
  exists lb la lu ll,
    Shape.generateButterflyShape win n = lb ++ la ++ lu ++ ll /\
    Shape.emitted body lb /\ Z.of_nat (length lb) = Shape.bodyCount n /\
    Shape.emitted antenna la /\ Z.of_nat (length la) = Shape.antennaCount n /\
    Shape.emitted upperWing lu /\ Z.of_nat (length lu) = Shape.upperCount n /\
    Shape.emitted lowerWing ll /\ Z.of_nat (length ll) = Shape.lowerCount n /\
    Shape.divisors (Shape.generate win n)
    = repeat (IZR (Shape.bodyBudget n) - 1) (Z.to_nat (Shape.bodyBudget n))
      ++ repeat (IZR (Shape.antennaBudget n) / 2 - 1)
           (Z.to_nat (Shape.antennaCount n))
      ++ repeat (IZR (Shape.upperBudget n) / 2) (Z.to_nat (Shape.upperCount n))
      ++ repeat (IZR (Shape.lowerBudget n) / 2) (Z.to_nat (Shape.lowerCount n)).
Proof.
  unfold Shape.generateButterflyShape, Shape.generate. cbv zeta.
  rewrite Math_floor_15, Math_floor_05.
  set (cX := innerWidth win / 2). set (cY := innerHeight win / 2 - 50).
  set (sc := JS.Math_min (innerWidth win) (innerHeight win) / 800).
  destruct (body_loop cX cY sc (Shape.bodyBudget n)
              (JS.range (Shape.bodyBudget n)) Shape.start)
    as (lb & Hpb & Heb & Hnb & Hdb).
  set (g1 := fold_left (Shape.bodyStep cX cY sc (Shape.bodyBudget n))
               (JS.range (Shape.bodyBudget n)) Shape.start) in *.
  edestruct (both_sides_emitted antenna
               (Shape.antennaStep cX cY sc (Shape.antennaBudget n)))
    with (n := Shape.antennaBudget n) (g := g1)
    as (la & Hpa & Hea & Hna & Hda).
  { intros side g0 i. unfold Shape.antennaStep. cbv zeta. reflexivity. }
  { intros side i. split; reflexivity. }
  set (g2 := Shape.both_sides _ (Shape.antennaBudget n) g1) in *.
  cbn [Shape.start Shape.points Shape.divisors length app] in Hpb, Hnb, Hdb.
  pose proof (range_length (Shape.bodyBudget n)) as Hr.
  assert (Hlb : Z.of_nat (length lb) = Shape.bodyCount n)
    by (unfold Shape.bodyCount; lia).
  assert (Hw : (n - Z.of_nat (length (Shape.points g2)))%Z = Shape.wingBudget n).
  { rewrite Hpa, Hpb, length_app. unfold Shape.wingBudget, Shape.antennaCount. lia. }
  rewrite Hw.
  destruct (generateWings_spec g2 cX cY sc (Shape.wingBudget n))
    as (lu & ll & Hpw & Heu & Hnu & Hel & Hnl & Hdw).
  exists lb, la, lu, ll. rewrite Hpw, Hdw, Hpa, Hda, Hpb, Hdb, <- !app_assoc.
  repeat (split; [eassumption || reflexivity|]).
  unfold Shape.upperCount, Shape.lowerCount, Shape.lowerBudget, Shape.upperBudget.
  unfold JS.range. rewrite length_map, length_seq. reflexivity.
Qed.

(** ** Counting the points of the shape *)

Lemma count_app (ty : PointType) (a b : list ButterflyPoint.t) :
  Shape.count ty (a ++ b) = (Shape.count ty a + Shape.count ty b)%Z.
Proof. unfold Shape.count. rewrite filter_app, length_app. lia. Qed.

Lemma count_emitted (ty ty' : PointType) (l : list ButterflyPoint.t) :
  Shape.emitted ty' l ->
  Shape.count ty l = if PointType_eqb ty' ty then Z.of_nat (length l) else 0%Z.
Proof.
  unfold Shape.count. induction 1 as [|p l [Hp _] _ IH]; cbn [filter length].
  - destruct (PointType_eqb ty' ty); reflexivity.
  - rewrite Hp. destruct (PointType_eqb ty' ty); cbn [length]; lia.
Qed.

(** The size of the shape and of each of its parts, for every count. *)
Lemma shape_counts (win : Window) (n : Z) :
  let s := Shape.generateButterflyShape win n in
  Z.of_nat (length s)
  = (Shape.bodyCount n + Shape.antennaCount n
     + Shape.upperCount n + Shape.lowerCount n)%Z /\
  Shape.count body s = Shape.bodyCount n /\
  Shape.count antenna s = Shape.antennaCount n /\
  Shape.count upperWing s = Shape.upperCount n /\
  Shape.count lowerWing s = Shape.lowerCount n.
Proof.
  destruct (generate_spec win n)
    as (lb & la & lu & ll & -> & Hb & Hnb & Ha & Hna & Hu & Hnu & Hl & Hnl & _).
  cbv zeta. rewrite !count_app, !length_app.
  rewrite !(count_emitted _ _ _ Hb), !(count_emitted _ _ _ Ha),
    !(count_emitted _ _ _ Hu), !(count_emitted _ _ _ Hl).
  cbn [PointType_eqb]. repeat split; lia.
Qed.

(** Every point of the shape has a color of the form [#RRGGBB]. *)
Lemma shape_colors_well_formed (win : Window) (n : Z) :
  Forall (fun p => Shape.well_formed_color (ButterflyPoint.color p) = true)
         (Shape.generateButterflyShape win n).
Proof.
  destruct (generate_spec win n)
    as (lb & la & lu & ll & -> & Hb & _ & Ha & _ & Hu & _ & Hl & _).
  repeat (apply Forall_app; split);
    (eapply Forall_impl; [|eassumption]); intros p [_ H]; exact H.
Qed.

(** The body, antenna and upper wing parts are within one point of 15% of
    the count, 5% of the count and 60% of the remainder; the lower wing
    part is within two points of 40% of the remainder, and the whole shape
    within two points of the count. *)
Lemma partition_bounds (n : Z) :
  (0 <= n)%Z ->
  let w := Shape.wingBudget n in
  (15 * n - 100 < 100 * Shape.bodyCount n <= 15 * n)%Z /\
  (5 * n - 100 < 100 * Shape.antennaCount n <= 5 * n + 100)%Z /\
  (6 * w - 10 < 10 * Shape.upperCount n <= 6 * w + 10)%Z /\
  (4 * w <= 10 * Shape.lowerCount n < 4 * w + 20)%Z /\
  (n <= Shape.bodyCount n + Shape.antennaCount n
        + Shape.upperCount n + Shape.lowerCount n <= n + 2)%Z.
Proof.
  intros Hn w.
  unfold Shape.lowerCount, Shape.upperCount, Shape.lowerBudget,
    Shape.upperBudget. fold w.
  assert (Hw : (0 <= w)%Z).
  { unfold w, Shape.wingBudget, Shape.antennaCount, Shape.pairCount,
      Shape.bodyCount, Shape.antennaBudget, Shape.bodyBudget. zdiv. }
  assert (Hwn : (w = n - (Shape.bodyCount n + Shape.antennaCount n))%Z)
    by reflexivity.
  unfold Shape.antennaCount, Shape.pairCount, Shape.bodyCount,
    Shape.antennaBudget, Shape.bodyBudget in *.
  clearbody w. zdiv.
Qed.

(** The shape has the configured number of points, or one or two more. *)
Corollary shape_length_bounds (win : Window) (n : Z) :
  (0 <= n)%Z ->
  (n <= Z.of_nat (length (Shape.generateButterflyShape win n)) <= n + 2)%Z.
Proof.
  intros Hn. destruct (shape_counts win n) as (-> & _).
  apply (partition_bounds n Hn).
Qed.

(** ** Creating the particles *)

(** Case analysis on every test of the goal. *)
Ltac split_ifs :=
  repeat match goal with
         | |- context [if ?b then _ else _] => destruct b
         end.

(** [getEdgePosition] only advances the stream of draws. *)
Lemma getEdgePosition_draws (st : System.t) :
  exists pos k,
    System.getEdgePosition st = (pos, System.set_randomCalls k st).
Proof.
  unfold System.getEdgePosition. cbn [System.Math_random].
  split_ifs; eexists _, _; reflexivity.
Qed.

Lemma createParticle_spec (acc : list Particle.t) (st : System.t)
    (point : ButterflyPoint.t) :
  exists q k,
    System.createParticle (acc, st) point
    = (acc ++ [q], System.set_randomCalls k st) /\
    Particle.originalTargetX q = ButterflyPoint.x point /\
    Particle.originalTargetY q = ButterflyPoint.y point /\
    Particle.type q = ButterflyPoint.type point.
Proof.
  unfold System.createParticle. cbn [System.Math_random].
  destruct (getEdgePosition_draws
              (System.set_randomCalls (S (System.randomCalls st)) st))
    as (startPos & k & ->).
  cbn [System.Math_random]. eexists _, _. split; [reflexivity|].
  cbn. repeat split.
Qed.

(** A shape point and the particle made for it. *)
Lemma createParticle_fold (points : list ButterflyPoint.t)
    (acc : list Particle.t) (st : System.t) :
  exists qs k,
    fold_left System.createParticle points (acc, st)
    = (acc ++ qs, System.set_randomCalls k st) /\
    Forall2
      (fun point q =>
         Particle.originalTargetX q = ButterflyPoint.x point /\
         Particle.originalTargetY q = ButterflyPoint.y point /\
         Particle.type q = ButterflyPoint.type point)
      points qs.
Proof.
  revert acc st. induction points as [|p points IH]; intros acc st.
  - exists [], (System.randomCalls st). cbn. rewrite app_nil_r.
    split; [destruct st; reflexivity | constructor].
  - cbn [fold_left].
    destruct (createParticle_spec acc st p) as (q & k & -> & Hq).
    edestruct IH as (qs & k' & -> & HF).
    exists (q :: qs), k'. rewrite <- app_assoc.
    split; [reflexivity | constructor; assumption].
Qed.

(** With the SVG surface attached, [createParticleSystem] makes one
    particle per point of the shape, aimed at that point. *)
Lemma createParticleSystem_spec (st : System.t) (svg : System.Svg) :
  System.svgRef st = Some svg ->
  let points :=
    Shape.generateButterflyShape (System.window st) (System.particleCount st) in
  exists ps k,
    System.createParticleSystem st
    = (Some ps,
       System.set_particles ps
         (System.set_randomCalls k (System.set_butterflyPoints points st))) /\
    Forall2
      (fun point q =>
         Particle.originalTargetX q = ButterflyPoint.x point /\
         Particle.originalTargetY q = ButterflyPoint.y point /\
         Particle.type q = ButterflyPoint.type point)
      points ps.
Proof.
  intros Hsvg points. unfold System.createParticleSystem. rewrite Hsvg.
  fold points.
  destruct (createParticle_fold points [] (System.set_butterflyPoints points st))
    as (ps & k & -> & HF).
  exists ps, k. split; [reflexivity | exact HF].
Qed.

Lemma animate_frame (now time : R) (st : System.t) :
  System.svgRef (System.animate now time st) = System.svgRef st /\
  System.window (System.animate now time st) = System.window st /\
  System.particleCount (System.animate now time st) = System.particleCount st /\
  System.animations (System.animate now time st) = System.animations st.
Proof.
  unfold System.animate. split_ifs; cbn; repeat split; reflexivity.
Qed.

(** The component as mounted has one particle per point of the shape,
    aimed at that point, and has started the formation timeline. *)
Lemma mount_spec (win : Window) (draws : nat -> R)
    (rectLeft rectTop now time : R) (count : Z) (transformed : bool) :
  let st := System.mount win draws rectLeft rectTop now time count transformed in
  Forall2
    (fun point q =>
       Particle.originalTargetX q = ButterflyPoint.x point /\
       Particle.originalTargetY q = ButterflyPoint.y point /\
       Particle.type q = ButterflyPoint.type point)
    (Shape.generateButterflyShape win count) (System.particles st) /\
  System.animations st
  = [System.FormationTimeline (System.batches (length (System.particles st)))].
Proof.
  unfold System.mount.
  set (st0 := System.set_svgRef _ (System.firstRender win draws count transformed)).
  destruct (animate_frame now time st0) as (Hsvg & Hwin & Hcount & Hanim).
  destruct (createParticleSystem_spec (System.animate now time st0) _ Hsvg)
    as (ps & k & Hc & HF).
  rewrite Hwin, Hcount in HF.
  unfold System.initEffect. rewrite Hc.
  unfold System.setupCanvas, System.animateFormation.
  cbn [System.svgRef System.set_animations System.set_formationProgress
       System.set_isFormed System.set_particles System.set_randomCalls
       System.set_butterflyPoints System.animations System.particles].
  rewrite Hsvg. cbn. rewrite Hanim. split; [exact HF | reflexivity].
Qed.

(** ** The size of the shape *)

(** C1.  The claim is that the generator returns exactly [N] points and
    the component creates exactly [N] particles, for every count [N].  At
    the count the page configures, 1500, the generator returns 1501 points
    and the mounted component holds 1501 particles: the wing budget is
    1199, its upper share 719 is odd, and the [i < 719 / 2] loop runs 360
    times on each side. *)
Theorem shape_of_1500_has_1501_points (win : Window) (draws : nat -> R)
    (rectLeft rectTop now time : R) (transformed : bool) :
  length (Shape.generateButterflyShape win 1500) = 1501%nat /\
  length (System.particles
            (System.mount win draws rectLeft rectTop now time 1500 transformed))
  = 1501%nat.
Proof.
  destruct (shape_counts win 1500) as (Hlen & _).
  assert (H : length (Shape.generateButterflyShape win 1500) = 1501%nat).
  { change (Shape.bodyCount 1500 + Shape.antennaCount 1500
            + Shape.upperCount 1500 + Shape.lowerCount 1500)%Z
      with 1501%Z in Hlen. lia. }
  split; [exact H|].
  destruct (mount_spec win draws rectLeft rectTop now time 1500 transformed)
    as [Hm _].
  rewrite <- (Forall2_length Hm). exact H.
Qed.

(** The parts of the shape at the configured count: 225 body points, 76
    antenna points, 720 upper wing points and 480 lower wing points. *)
Lemma partition_at_1500 (win : Window) :
  let s := Shape.generateButterflyShape win 1500 in
  Shape.count body s = 225%Z /\ Shape.count antenna s = 76%Z /\
  Shape.count upperWing s = 720%Z /\ Shape.count lowerWing s = 480%Z.
Proof.
  destruct (shape_counts win 1500) as (_ & Hb & Ha & Hu & Hl).
  cbv zeta. rewrite Hb, Ha, Hu, Hl. repeat split; reflexivity.
Qed.

(** C4.  The claim is that every part of the partition is within one
    point of its configured fraction for every count of at least 20.  At
    count 26 the remainder left to the wings is 21 points, 40% of which is
    8.4, and the generator emits 10 lower wing points: the lower budget 9
    is odd and the [i < 9 / 2] loop runs 5 times on each side.  The
    deviation from 40% of the remainder, and from 32% of the count, is
    above one point. *)
Theorem lower_wing_overshoots_at_26 (win : Window) :
  let s := Shape.generateButterflyShape win 26 in
  let w := (26 - (Shape.count body s + Shape.count antenna s))%Z in
  Shape.count lowerWing s = 10%Z /\ w = 21%Z /\
  (10 * Shape.count lowerWing s > 4 * w + 10)%Z /\
  (100 * Shape.count lowerWing s > 32 * 26 + 100)%Z.
Proof.
  destruct (shape_counts win 26) as (_ & Hb & Ha & _ & Hl).
  cbv zeta. rewrite Hb, Ha, Hl. repeat split; reflexivity.
Qed.

(** ** Divisors *)

Lemma Forall_repeat_nonzero (d : R) (k : nat) :
  (k <> 0%nat -> d <> 0) -> Forall (fun d => d <> 0) (repeat d k).
Proof.
  intros H. destruct k as [|k]; [constructor|].
  apply Forall_forall. intros e He. apply repeat_spec in He. subst e.
  apply H. discriminate.
Qed.

(** A wing loop that runs divides by a positive half-count. *)
Lemma pair_divisor_nonzero (budget : Z) :
  Z.to_nat (Shape.pairCount budget) <> 0%nat -> IZR budget / 2 <> 0.
Proof.
  unfold Shape.pairCount. intros H.
  assert (0 < budget)%Z as Hpos by zdiv.
  apply IZR_lt in Hpos. lra.
Qed.

(** C8.  For a particle count of at most one, no executed iteration of
    the body, antenna and wing loops divides by zero: the body and antenna
    loops do not run, and a wing loop that runs divides by half a positive
    budget. *)
Theorem no_zero_divisor_when_degenerate (win : Window) (particleCount : Z) :
  (particleCount <= 1)%Z ->
  Forall (fun d => d <> 0) (Shape.divisors (Shape.generate win particleCount)).
Proof.
  intros Hn.
  destruct (generate_spec win particleCount)
    as (lb & la & lu & ll & _ & _ & _ & _ & _ & _ & _ & _ & _ & ->).
  assert (Hb : Z.to_nat (Shape.bodyBudget particleCount) = 0%nat)
    by (unfold Shape.bodyBudget; zdiv).
  assert (Ha : Z.to_nat (Shape.antennaCount particleCount) = 0%nat)
    by (unfold Shape.antennaCount, Shape.pairCount, Shape.antennaBudget; zdiv).
  rewrite Hb, Ha. cbn [repeat app].
  apply Forall_app. split; apply Forall_repeat_nonzero, pair_divisor_nonzero.
Qed.

Lemma no_zero_divisor_when_degenerate_witness :
  (1 <= 1)%Z /\
  Forall (fun d => d <> 0)
    (Shape.divisors
       (Shape.generate {| innerWidth := 1920; innerHeight := 1080 |} 1)).
Proof.
  split; [lia | apply no_zero_divisor_when_degenerate; lia].
Defined.

(** The restriction to degenerate counts matters: at count 7 the body
    budget is 1 and the body loop divides by [1 - 1]. *)
Remark zero_divisor_at_7 (win : Window) :
  In 0 (Shape.divisors (Shape.generate win 7)).
Proof.
  destruct (generate_spec win 7)
    as (lb & la & lu & ll & _ & _ & _ & _ & _ & _ & _ & _ & _ & ->).
  change (Shape.bodyBudget 7) with 1%Z. cbn [Z.to_nat Pos.to_nat Pos.iter_op repeat app].
  left. lra.
Qed.

(** ** Floating and the decay of the mouse offsets *)

Lemma Forall2_map_same {A : Type} (P : A -> A -> Prop) (f : A -> A) (l : list A) :
  (forall a, P a (f a)) -> Forall2 P l (map f l).
Proof. intros H. induction l; cbn; constructor; auto. Qed.

Lemma Forall2_mapi_from {A : Type} (P : A -> A -> Prop) (f : nat -> A -> A)
    (l : list A) (k : nat) :
  (forall i a, P a (f i a)) -> Forall2 P l (JS.mapi_from f k l).
Proof. intros H. revert k. induction l; intros k; cbn; constructor; auto. Qed.

Lemma Forall2_same {A : Type} (P : A -> A -> Prop) (l : list A) :
  (forall a, P a a) -> Forall2 P l l.
Proof. intros H. induction l; constructor; auto. Qed.

(** C7.  [updateFloating] draws every formed particle at its target plus
    its idle sinusoid plus its mouse offset, and leaves every particle
    that is not formed as it is. *)
Theorem updateFloating_draws_formed_only (time : R) (ps : list Particle.t) :
  Forall2
    (fun p p' =>
       if Particle.formed p then
         Element.cx (Particle.element p')
         = Particle.targetX p
           + sin (time * Particle.floatSpeed p + Particle.floatPhase p)
             * Particle.floatAmplitude p
           + Particle.mouseOffsetX p /\
         Element.cy (Particle.element p')
         = Particle.targetY p
           + cos (time * Particle.floatSpeed p + Particle.floatPhase p)
             * Particle.floatAmplitude p * 0.6
           + Particle.mouseOffsetY p
       else p' = p)
    ps (Motion.updateFloating time ps).
Proof.
  unfold Motion.updateFloating. apply Forall2_map_same. intros p.
  unfold Motion.floatParticle.
  destruct (Particle.formed p); cbn; [split|]; reflexivity.
Qed.

(** One call of [updateFloating] multiplies the offsets of a formed
    particle by 0.92 and keeps its other fields but the circle. *)
Lemma floatParticle_decay (time : R) (p : Particle.t) :
  Particle.formed (Motion.floatParticle time p) = Particle.formed p /\
  (Particle.formed p = true ->
   Particle.mouseOffsetX (Motion.floatParticle time p)
   = Particle.mouseOffsetX p * 0.92 /\
   Particle.mouseOffsetY (Motion.floatParticle time p)
   = Particle.mouseOffsetY p * 0.92).
Proof.
  unfold Motion.floatParticle.
  destruct (Particle.formed p) eqn:E; cbn; rewrite ?E; split; try reflexivity.
  - intros _. split; reflexivity.
  - discriminate.
Qed.

(** A geometric sequence of ratio 0.92 falls below every positive bound. *)
Lemma geometric_decay (m eps : R) :
  0 < eps -> exists K : nat, forall k, (K <= k)%nat -> Rabs (m * 0.92 ^ k) < eps.
Proof.
  intros Heps. destruct (Req_dec m 0) as [->|Hm].
  - exists 0%nat. intros k _. rewrite Rmult_0_l, Rabs_R0. exact Heps.
  - assert (Hpos : 0 < Rabs m) by (apply Rabs_pos_lt; exact Hm).
    destruct (pow_lt_1_zero 0.92) with (y := eps / Rabs m) as [K HK].
    + rewrite Rabs_pos_eq; lra.
    + apply Rdiv_lt_0_compat; assumption.
    + exists K. intros k Hk. rewrite Rabs_mult.
      specialize (HK k Hk).
      apply Rmult_lt_compat_l with (r := Rabs m) in HK; [|exact Hpos].
      replace (Rabs m * (eps / Rabs m)) with eps in HK by (field; lra).
      exact HK.
Qed.

Lemma Forall2_map_In {A : Type} (P : A -> A -> Prop) (f : A -> A) (l : list A) :
  (forall a, In a l -> P a (f a)) -> Forall2 P l (map f l).
Proof.
  intros H. induction l as [|a l IH]; cbn; constructor.
  - apply H. left. reflexivity.
  - apply IH. intros b Hb. apply H. right. exact Hb.
Qed.

(** A frame of a formed component that is not resetting runs
    [updateFloating] and touches neither flag. *)
Lemma animate_floating (now time : R) (st : System.t) :
  System.isFormed st = true -> System.isResetting st = false ->
  System.particles (System.animate now time st)
  = Motion.updateFloating time (System.particles st) /\
  System.isFormed (System.animate now time st) = true /\
  System.isResetting (System.animate now time st) = false.
Proof.
  intros Hf Hr. unfold System.animate.
  destruct (Z.eqb _ 0); [destruct (JS.eqb _ 0)|];
    cbn; rewrite Hf, Hr; cbn; repeat split; assumption.
Qed.

(** [k] frames on one particle. *)
Lemma floatParticle_iter (clocks : list (R * R)) (p : Particle.t) :
  let p' := fold_left (fun q c => Motion.floatParticle (snd c) q) clocks p in
  Particle.formed p = true ->
  Particle.mouseOffsetX p' = Particle.mouseOffsetX p * 0.92 ^ length clocks /\
  Particle.mouseOffsetY p' = Particle.mouseOffsetY p * 0.92 ^ length clocks.
Proof.
  revert p. induction clocks as [|c clocks IH]; intros p p' Hf.
  - cbn. split; ring.
  - subst p'. cbn [fold_left length].
    destruct (floatParticle_decay (snd c) p) as [Hf' Hd].
    destruct (Hd Hf) as [Hx Hy].
    destruct (IH (Motion.floatParticle (snd c) p)) as [Hx' Hy'];
      [rewrite Hf'; exact Hf|].
    rewrite Hx', Hy', Hx, Hy. cbn [pow]. split; ring.
Qed.

Lemma run_frames (clocks : list (R * R)) (st : System.t) :
  System.isFormed st = true -> System.isResetting st = false ->
  System.particles (System.run (System.frames clocks) st)
  = map (fun p => fold_left (fun q c => Motion.floatParticle (snd c) q) clocks p)
        (System.particles st).
Proof.
  revert st. induction clocks as [|[now time] clocks IH]; intros st Hf Hr.
  - cbn. rewrite map_id. reflexivity.
  - cbn [System.frames map System.run fold_left System.step].
    destruct (animate_floating now time st Hf Hr) as (Hp & Hf' & Hr').
    specialize (IH (System.animate now time st) Hf' Hr').
    unfold System.run, System.frames in IH. rewrite IH, Hp.
    unfold Motion.updateFloating. rewrite map_map. reflexivity.
Qed.

(** One bound on the number of frames serves all the particles. *)
Lemma geometric_decay_all (eps : R) (ps : list Particle.t) :
  0 < eps ->
  exists K : nat, forall k, (K <= k)%nat ->
    Forall (fun p => Rabs (Particle.mouseOffsetX p * 0.92 ^ k) < eps /\
                     Rabs (Particle.mouseOffsetY p * 0.92 ^ k) < eps) ps.
Proof.
  intros Heps. induction ps as [|p ps [K HK]].
  - exists 0%nat. constructor.
  - destruct (geometric_decay (Particle.mouseOffsetX p) eps Heps) as [Kx HKx].
    destruct (geometric_decay (Particle.mouseOffsetY p) eps Heps) as [Ky HKy].
    exists (Nat.max K (Nat.max Kx Ky)). intros k Hk. constructor.
    + split; [apply HKx | apply HKy]; lia.
    + apply HK. lia.
Qed.

(** C5.  Each call of [updateFloating] multiplies the mouse offsets of
    every formed particle by 0.92, so after [k] frames without any other
    event they are the initial offsets times [0.92 ^ k]; and for every
    positive [eps] there is a number of frames after which they stay below
    [eps] in magnitude. *)
Theorem mouse_offsets_decay (st : System.t) (eps : R) :
  0 < eps -> System.isFormed st = true -> System.isResetting st = false ->
  (forall time,
     Forall2
       (fun p p' =>
          Particle.formed p = true ->
          Particle.mouseOffsetX p' = Particle.mouseOffsetX p * 0.92 /\
          Particle.mouseOffsetY p' = Particle.mouseOffsetY p * 0.92)
       (System.particles st)
       (Motion.updateFloating time (System.particles st))) /\
  (forall clocks : list (R * R),
     Forall2
       (fun p p' =>
          Particle.formed p = true ->
          Particle.mouseOffsetX p'
          = Particle.mouseOffsetX p * 0.92 ^ length clocks /\
          Particle.mouseOffsetY p'
          = Particle.mouseOffsetY p * 0.92 ^ length clocks)
       (System.particles st)
       (System.particles (System.run (System.frames clocks) st))) /\
  exists K : nat, forall clocks : list (R * R), (K <= length clocks)%nat ->
    Forall2
      (fun p p' =>
         Particle.formed p = true ->
         Rabs (Particle.mouseOffsetX p') < eps /\
         Rabs (Particle.mouseOffsetY p') < eps)
      (System.particles st)
      (System.particles (System.run (System.frames clocks) st)).
Proof.
  intros Heps Hf Hr. split; [|split].
  - intros time. apply Forall2_map_same. intros p.
    apply (floatParticle_decay time p).
  - intros clocks. rewrite (run_frames clocks st Hf Hr).
    apply Forall2_map_same. intros p. apply (floatParticle_iter clocks p).
  - destruct (geometric_decay_all eps (System.particles st) Heps) as [K HK].
    exists K. intros clocks Hk. rewrite (run_frames clocks st Hf Hr).
    apply Forall2_map_In. intros p Hin Hformed.
    destruct (floatParticle_iter clocks p Hformed) as [Hx Hy].
    specialize (HK (length clocks) Hk).
    rewrite Forall_forall in HK. destruct (HK p Hin) as [Bx By].
    rewrite Hx, Hy. split; assumption.
Qed.

Lemma mouse_offsets_decay_witness :
  0 < 0.001 /\
  System.isFormed Sample.system = true /\
  System.isResetting Sample.system = false /\
  exists K : nat, forall clocks : list (R * R), (K <= length clocks)%nat ->
    Forall2
      (fun p p' =>
         Particle.formed p = true ->
         Rabs (Particle.mouseOffsetX p') < 0.001 /\
         Rabs (Particle.mouseOffsetY p') < 0.001)
      (System.particles Sample.system)
      (System.particles (System.run (System.frames clocks) Sample.system)).
Proof.
  split; [lra|]. split; [reflexivity|]. split; [reflexivity|].
  apply (mouse_offsets_decay Sample.system 0.001); [lra | reflexivity | reflexivity].
Defined.

(** ** The formed flag *)

Lemma gtb_spec (a b : R) : JS.gtb a b = true <-> b < a.
Proof.
  unfold JS.gtb, JS.ltb. destruct (Rlt_dec b a); split; intros H;
    (reflexivity || assumption || discriminate || contradiction).
Qed.

Lemma updateParticlePosition_formed (p : Particle.t) :
  Particle.formed (Motion.updateParticlePosition p)
  = Particle.formed p || JS.gtb (Particle.progress p) 0.95.
Proof.
  unfold Motion.updateParticlePosition, Motion.curvePoint. cbn.
  destruct (JS.gtb (Particle.progress p) 0.95);
    destruct (Particle.formed p) eqn:E; cbn; rewrite ?E; reflexivity.
Qed.

(** [updateParticlePosition] writes the circle and the flag only. *)
Lemma updateParticlePosition_frame (p : Particle.t) :
  let p' := Motion.updateParticlePosition p in
  Particle.targetX p' = Particle.targetX p /\
  Particle.targetY p' = Particle.targetY p /\
  Particle.originalTargetX p' = Particle.originalTargetX p /\
  Particle.originalTargetY p' = Particle.originalTargetY p /\
  Particle.progress p' = Particle.progress p /\
  Element.cx (Particle.element p') = fst (Motion.curvePoint p) /\
  Element.cy (Particle.element p') = snd (Motion.curvePoint p).
Proof.
  unfold Motion.updateParticlePosition, Motion.curvePoint. cbn.
  destruct (JS.gtb (Particle.progress p) 0.95 && negb (Particle.formed p));
    cbn; repeat split; reflexivity.
Qed.

Lemma scatterMove_fold (l : list Particle.t) (acc : list (R * R * R))
    (st : System.t) :
  exists moves k,
    fold_left System.scatterMove l (acc, st)
    = (acc ++ moves, System.set_randomCalls k st).
Proof.
  revert acc st. induction l as [|p l IH]; intros acc st.
  - exists [], (System.randomCalls st). cbn. rewrite app_nil_r.
    destruct st; reflexivity.
  - cbn [fold_left]. unfold System.scatterMove at 2.
    destruct (getEdgePosition_draws st) as (pos & k & ->).
    cbn [System.Math_random].
    edestruct IH as (moves & k' & ->).
    eexists (_ :: moves), k'. rewrite <- app_assoc. reflexivity.
Qed.

(** A first reset request raises [isResetting], lowers [isFormed] and
    schedules the scatter timeline; it leaves the particles alone. *)
Lemma resetAnimation_starts (st : System.t) :
  System.isResetting st = false ->
  System.isResetting (System.resetAnimation st) = true /\
  System.isFormed (System.resetAnimation st) = false /\
  System.particles (System.resetAnimation st) = System.particles st /\
  exists moves,
    System.animations (System.resetAnimation st)
    = System.animations st ++ [System.ScatterTimeline moves].
Proof.
  intros Hr. unfold System.resetAnimation. rewrite Hr.
  edestruct scatterMove_fold as (moves & k & ->).
  cbn. repeat split. exists moves. reflexivity.
Qed.

Lemma animate_particles (now time : R) (st : System.t) :
  System.particles (System.animate now time st) = System.particles st \/
  System.particles (System.animate now time st)
  = Motion.updateFloating time (System.particles st).
Proof. unfold System.animate. split_ifs; cbn; auto. Qed.

Lemma handleMouseMove_particles (x y : R) (st : System.t) :
  System.particles (System.handleMouseMove x y st) = System.particles st \/
  exists mx my,
    System.particles (System.handleMouseMove x y st)
    = map (fun p => fst (Motion.attractParticle (System.window st) mx my p))
          (System.particles st).
Proof.
  unfold System.handleMouseMove. destruct (System.svgRef st); [|auto].
  cbn. destruct (System.isFormed st); cbn; [|auto].
  right. eexists _, _. rewrite map_map. reflexivity.
Qed.

Lemma handleClick_particles (x y : R) (st : System.t) :
  System.particles (System.handleClick x y st) = System.particles st \/
  exists cx cy,
    System.particles (System.handleClick x y st)
    = map (fun p => fst (Motion.rippleParticle cx cy p)) (System.particles st).
Proof.
  unfold System.handleClick, System.createRippleEffect.
  destruct (System.svgRef st); [|auto].
  destruct (System.isFormed st); cbn; [|auto].
  right. eexists _, _. rewrite map_map. reflexivity.
Qed.

(** No event other than the end of the scatter timeline lowers the flag
    of a particle. *)
Lemma step_keeps_formed (e : System.Event) (st : System.t) :
  System.clearsFormed e = false ->
  Forall2 (fun p p' => Particle.formed p = true -> Particle.formed p' = true)
          (System.particles st) (System.particles (System.step st e)).
Proof.
  intros He. destruct e; try discriminate He; cbn [System.step].
  - apply Forall2_mapi_from. intros i p Hf. unfold System.tweenParticle.
    split_ifs; rewrite ?updateParticlePosition_formed; cbn; rewrite ?Hf;
      reflexivity.
  - apply Forall2_same. auto.
  - apply Forall2_same. auto.
  - destruct (animate_particles now time st) as [-> | ->].
    + apply Forall2_same. auto.
    + apply Forall2_map_same. intros p Hf.
      destruct (floatParticle_decay time p) as [-> _]. exact Hf.
  - destruct (handleMouseMove_particles clientX clientY st)
      as [-> | (mx & my & ->)].
    + apply Forall2_same. auto.
    + apply Forall2_map_same. intros p Hf. unfold Motion.attractParticle.
      rewrite Hf. cbn. split_ifs; cbn; exact Hf.
  - destruct (handleClick_particles clientX clientY st)
      as [-> | (cx & cy & ->)].
    + apply Forall2_same. auto.
    + apply Forall2_map_same. intros p Hf. unfold Motion.rippleParticle.
      rewrite Hf. split_ifs; cbn; exact Hf.
  - apply Forall2_same. auto.
  - unfold System.resetParticles.
    destruct (System.isResetting st) eqn:Hr.
    + unfold System.resetAnimation. rewrite Hr. apply Forall2_same. auto.
    + destruct (resetAnimation_starts st Hr) as (_ & _ & -> & _).
      apply Forall2_same. auto.
Qed.

Lemma Forall2_compose {A : Type} (P Q S : A -> A -> Prop) (l1 l2 l3 : list A) :
  (forall a b c, P a b -> Q b c -> S a c) ->
  Forall2 P l1 l2 -> Forall2 Q l2 l3 -> Forall2 S l1 l3.
Proof.
  intros Hcomp H12. revert l3.
  induction H12 as [|a b l1 l2 Hab _ IH]; intros l3 H23; inversion H23; subst;
    constructor; eauto.
Qed.

Lemma Forall2_nth_error {A : Type} (P : A -> A -> Prop) (l1 l2 : list A) :
  Forall2 P l1 l2 <->
  length l1 = length l2 /\
  forall i a b, nth_error l1 i = Some a -> nth_error l2 i = Some b -> P a b.
Proof.
  split.
  - induction 1 as [|a b l1 l2 Hab _ [IHlen IH]].
    + split; [reflexivity|]. intros [|i] a b H; discriminate H.
    + split; [cbn; congruence|]. intros [|i] a' b' Ha Hb; cbn in Ha, Hb.
      * congruence.
      * eapply IH; eassumption.
  - revert l2. induction l1 as [|a l1 IH]; intros [|b l2] [Hlen H];
      try discriminate Hlen; constructor.
    + apply (H 0%nat); reflexivity.
    + apply IH. split; [cbn in Hlen; congruence|].
      intros i a' b' Ha Hb. apply (H (S i)); assumption.
Qed.

(** ** The reset path *)

Lemma rescatter_fold (ps acc : list Particle.t) (st : System.t) :
  exists ps' k,
    fold_left System.rescatter ps (acc, st)
    = (acc ++ ps', System.set_randomCalls k st) /\
    Forall2 System.resetOf ps ps'.
Proof.
  revert acc st. induction ps as [|p ps IH]; intros acc st.
  - exists [], (System.randomCalls st). cbn. rewrite app_nil_r.
    split; [destruct st; reflexivity | constructor].
  - cbn [fold_left]. unfold System.rescatter at 2.
    destruct (getEdgePosition_draws st) as (pos & k & ->).
    edestruct IH as (ps' & k' & -> & HF).
    eexists (_ :: ps'), k'. rewrite <- app_assoc. split; [reflexivity|].
    constructor; [|exact HF]. cbn. repeat split; reflexivity.
Qed.

(** When the scatter timeline completes, every particle has its original
    target again, no mouse offset, no progress and a lowered flag; a
    formation timeline is started and the component is neither formed nor
    resetting. *)
Lemma scatterComplete_spec (moves : list (R * R * R)) (st : System.t) :
  let st' := System.scatterComplete moves st in
  Forall2 System.resetOf (System.particles st) (System.particles st') /\
  System.isFormed st' = false /\
  System.isResetting st' = false /\
  System.animations st'
  = System.animations st
    ++ [System.FormationTimeline (System.batches (length (System.particles st')))].
Proof.
  unfold System.scatterComplete, System.scatterOnComplete.
  cbn [System.particles System.set_particles].
  edestruct rescatter_fold as (ps' & k & -> & HF).
  cbn. split; [|repeat split].
  eapply Forall2_compose; [| |exact HF].
  2:{ unfold System.scatterEnd, JS.mapi.
      apply Forall2_mapi_from
        with (P := fun p p' =>
                     Particle.originalTargetX p' = Particle.originalTargetX p /\
                     Particle.originalTargetY p' = Particle.originalTargetY p).
      intros i p. destruct (nth_error moves i) as [[[x y] d]|]; cbn;
        split; reflexivity. }
  intros a b c [Hx Hy] H. unfold System.resetOf in *.
  rewrite <- Hx, <- Hy. exact H.
Qed.

(** C3.  [updateParticlePosition] leaves the flag of a particle raised
    exactly when it was raised already or the progress exceeds 0.95; no
    event other than the completion of the scatter timeline of the reset
    path lowers a raised flag, and that completion lowers every flag. *)
Theorem formed_flag_monotone (p : Particle.t) (events : list System.Event)
    (moves : list (R * R * R)) (st : System.t) :
  forallb (fun e => negb (System.clearsFormed e)) events = true ->
  (Particle.formed (Motion.updateParticlePosition p) = true <->
   Particle.formed p = true \/ 0.95 < Particle.progress p) /\
  Forall2 (fun q q' => Particle.formed q = true -> Particle.formed q' = true)
    (System.particles st) (System.particles (System.run events st)) /\
  Forall (fun q => Particle.formed q = false)
    (System.particles (System.scatterComplete moves st)).
Proof.
  intros Hev. split; [|split].
  - rewrite updateParticlePosition_formed, orb_true_iff, gtb_spec. reflexivity.
  - revert st Hev. induction events as [|e events IH]; intros st Hev.
    + apply Forall2_same. auto.
    + cbn [forallb] in Hev. apply andb_true_iff in Hev. destruct Hev as [He Hev].
      apply negb_true_iff in He. cbn [System.run fold_left].
      eapply Forall2_compose;
        [| apply (step_keeps_formed e st He) | apply (IH _ Hev)].
      cbn. auto.
  - destruct (scatterComplete_spec moves st) as (HF & _).
    cbv zeta in HF. induction HF as [|a b l1 l2 Hab _ IH]; constructor.
    + apply Hab.
    + exact IH.
Qed.

Lemma formed_flag_monotone_witness :
  forallb (fun e => negb (System.clearsFormed e))
    [System.FormationUpdate [0%nat] (fun _ => 1); System.Frame 16 1;
     System.MouseMove 990 510; System.Click 990 510; System.ResetParticles]
  = true /\
  (Particle.formed (Motion.updateParticlePosition Sample.particle) = true <->
   Particle.formed Sample.particle = true \/
   0.95 < Particle.progress Sample.particle) /\
  Forall2 (fun q q' => Particle.formed q = true -> Particle.formed q' = true)
    (System.particles Sample.system)
    (System.particles
       (System.run
          [System.FormationUpdate [0%nat] (fun _ => 1); System.Frame 16 1;
           System.MouseMove 990 510; System.Click 990 510;
           System.ResetParticles]
          Sample.system)) /\
  Forall (fun q => Particle.formed q = false)
    (System.particles (System.scatterComplete [(0, 0, 2)] Sample.system)).
Proof.
  split; [reflexivity|].
  apply (formed_flag_monotone Sample.particle _ [(0, 0, 2)] Sample.system).
  reflexivity.
Defined.

(** ** The round trip of a reset *)

Lemma easeOutExpo_1 : Motion.easeOutExpo 1 = 1.
Proof.
  unfold Motion.easeOutExpo, JS.eqb.
  destruct (Req_dec_T 1 1) as [_|H]; [reflexivity | contradiction H; reflexivity].
Qed.

(** At progress 1 the eased progress is 1 and the amplitude of the path
    curve, [sin PI * 20], is zero: the particle is drawn at its target. *)
Lemma curvePoint_at_1 (p : Particle.t) :
  Particle.progress p = 1 ->
  Motion.curvePoint p = (Particle.targetX p, Particle.targetY p).
Proof.
  intros H. unfold Motion.curvePoint. rewrite H, easeOutExpo_1.
  rewrite Rmult_1_l, sin_PI. f_equal; ring.
Qed.

Lemma tweenParticle_spec (batch : list nat) (value : nat -> R) (i : nat)
    (p : Particle.t) :
  let p' := System.tweenParticle batch value i p in
  System.sameTargets p p' /\
  (forall last, System.atTarget p \/ last <> Some 1 ->
     System.writeOf i last (System.FormationUpdate batch value) = Some 1 ->
     System.atTarget p').
Proof.
  unfold System.tweenParticle, System.writeOf.
  destruct (existsb (Nat.eqb i) batch).
  - destruct (JS.gtb _ 0) eqn:Hg.
    + destruct (updateParticlePosition_frame (Particle.set_progress (value i) p))
        as (Hx & Hy & _ & _ & _ & Hcx & Hcy).
      split; [split; assumption|]. intros last _ Hw. injection Hw as Hw.
      unfold System.atTarget. rewrite Hcx, Hcy, Hx, Hy.
      rewrite curvePoint_at_1 by exact Hw. split; reflexivity.
    + split; [split; reflexivity|]. intros last _ Hw. injection Hw as Hw.
      cbn in Hg. rewrite Hw in Hg.
      assert (JS.gtb 1 0 = true) as Hone by (apply gtb_spec; lra).
      congruence.
  - split; [split; reflexivity|]. intros last [H|H] Hw; [exact H | contradiction].
Qed.

Lemma written_one_dec (w : option R) : w = Some 1 \/ w <> Some 1.
Proof.
  destruct w as [v|]; [|right; discriminate].
  destruct (Req_dec v 1) as [->|H]; [left; reflexivity | right; congruence].
Qed.

(** While the component is not formed, an event of a formation run
    changes the particles only through a tick of the timeline. *)
Lemma step_during_formation (e : System.Event) (st : System.t) :
  System.duringFormation e = true -> System.isFormed st = false ->
  System.isFormed (System.step st e) = false /\
  System.particles (System.step st e)
  = match e with
    | System.FormationUpdate batch value =>
        JS.mapi (System.tweenParticle batch value) (System.particles st)
    | _ => System.particles st
    end.
Proof.
  intros He Hf. destruct e; try discriminate He; cbn [System.step].
  - split; [exact Hf | reflexivity].
  - split; [exact Hf | reflexivity].
  - unfold System.animate.
    destruct (Z.eqb _ 0); [destruct (JS.eqb _ 0)|];
      cbn; rewrite Hf; cbn; split; (exact Hf || reflexivity).
  - unfold System.handleMouseMove. destruct (System.svgRef st);
      cbn; rewrite ?Hf; cbn; split; (exact Hf || reflexivity).
  - unfold System.handleClick. destruct (System.svgRef st);
      rewrite ?Hf; cbn; split; (exact Hf || reflexivity).
  - split; [exact Hf | reflexivity].
Qed.

(** The invariant of a formation run: the targets stay, and a particle
    whose last written progress is 1 is drawn at its target. *)
Lemma formation_run_invariant (events : list System.Event) (st : System.t)
    (last : nat -> option R) (ps0 : list Particle.t) :
  forallb System.duringFormation events = true ->
  System.isFormed st = false ->
  Forall2 System.sameTargets ps0 (System.particles st) ->
  (forall i p, nth_error (System.particles st) i = Some p ->
     System.atTarget p \/ last i <> Some 1) ->
  let st' := System.run events st in
  Forall2 System.sameTargets ps0 (System.particles st') /\
  (forall i p, nth_error (System.particles st') i = Some p ->
     fold_left (System.writeOf i) events (last i) = Some 1 ->
     System.atTarget p).
Proof.
  revert st last. induction events as [|e events IH]; intros st last Hev Hf Hs Hl.
  - cbn. split; [exact Hs|]. intros i p Hp Hw.
    destruct (Hl i p Hp) as [H|H]; [exact H | contradiction].
  - cbn [forallb] in Hev. apply andb_true_iff in Hev. destruct Hev as [He Hev].
    destruct (step_during_formation e st He Hf) as [Hf' Hp'].
    cbn [System.run fold_left].
    apply (IH (System.step st e) (fun i => System.writeOf i (last i) e) Hev Hf').
    + apply Forall2_compose
        with (P := System.sameTargets) (Q := System.sameTargets)
             (l2 := System.particles st); [|exact Hs|].
      { intros a b c [H1 H2] [H3 H4]. split; congruence. }
      rewrite Hp'. destruct e; try (apply Forall2_same; split; reflexivity).
      apply Forall2_mapi_from. intros i p.
      apply (tweenParticle_spec batch value i p).
    + intros i p Hp. rewrite Hp' in Hp.
      destruct e; try (cbn [System.writeOf]; apply (Hl i p Hp)).
      rewrite mapi_nth_error in Hp.
      destruct (nth_error (System.particles st) i) as [q|] eqn:Hq;
        [|discriminate Hp].
      injection Hp as <-.
      destruct (tweenParticle_spec batch value i q) as [_ Hat].
      destruct (written_one_dec (System.writeOf i (last i)
                  (System.FormationUpdate batch value))) as [Hw|Hw].
      * left. apply (Hat (last i) (Hl i q Hq) Hw).
      * right. exact Hw.
Qed.

(** C2.  When the scatter timeline of a reset completes, every particle
    has its original target again, zero mouse offsets, a lowered flag and
    progress 0; [updateParticlePosition] at progress 1 draws a particle
    exactly at its target, the eased progress being 1 and the amplitude of
    the path curve 0; so after the formation run that follows, in which
    the last progress written to every particle is 1, every particle is
    drawn at its original target. *)
Theorem reset_round_trip (moves : list (R * R * R)) (st : System.t)
    (events : list System.Event) (p : Particle.t) :
  forallb System.duringFormation events = true ->
  (forall i, (i < length (System.particles st))%nat ->
     System.lastWrite events i = Some 1) ->
  let reset := System.scatterComplete moves st in
  let final := System.run (events ++ [System.FormationComplete]) reset in
  Forall2 System.resetOf (System.particles st) (System.particles reset) /\
  (Motion.easeOutExpo 1 = 1 /\ sin (1 * PI) * 20 = 0 /\
   Element.cx (Particle.element
                 (Motion.updateParticlePosition (Particle.set_progress 1 p)))
   = Particle.targetX p /\
   Element.cy (Particle.element
                 (Motion.updateParticlePosition (Particle.set_progress 1 p)))
   = Particle.targetY p) /\
  System.isFormed final = true /\
  Forall2
    (fun q q' =>
       Element.cx (Particle.element q') = Particle.originalTargetX q /\
       Element.cy (Particle.element q') = Particle.originalTargetY q)
    (System.particles st) (System.particles final).
Proof.
  intros Hev Hlast reset final.
  destruct (scatterComplete_spec moves st) as (Hreset & Hf & _).
  fold reset in Hreset, Hf.
  split; [exact Hreset|]. split.
  { split; [exact easeOutExpo_1|]. split; [rewrite Rmult_1_l, sin_PI; ring|].
    destruct (updateParticlePosition_frame (Particle.set_progress 1 p))
      as (_ & _ & _ & _ & _ & Hcx & Hcy).
    rewrite Hcx, Hcy, curvePoint_at_1 by reflexivity. split; reflexivity. }
  destruct (formation_run_invariant events reset (fun _ => None)
              (System.particles reset) Hev Hf) as [Hsame Hat].
  { apply Forall2_same. split; reflexivity. }
  { intros i q _. right. discriminate. }
  assert (Hfinal : final = System.set_isFormed true (System.run events reset)).
  { unfold final, System.run. rewrite fold_left_app. reflexivity. }
  rewrite Hfinal. cbn [System.isFormed System.particles System.set_isFormed].
  split; [reflexivity|].
  apply Forall2_nth_error. split.
  - rewrite (Forall2_length Hreset). apply (Forall2_length Hsame).
  - intros i a b Ha Hb.
    assert (Hi : (i < length (System.particles st))%nat)
      by (apply nth_error_Some; congruence).
    destruct (nth_error (System.particles reset) i) as [q|] eqn:Hq.
    + destruct (proj1 (Forall2_nth_error _ _ _) Hreset) as [_ H1].
      destruct (proj1 (Forall2_nth_error _ _ _) Hsame) as [_ H2].
      destruct (H1 i a q Ha Hq) as (_ & _ & Hx & Hy & _).
      destruct (H2 i q b Hq Hb) as [Hx' Hy'].
      destruct (Hat i b Hb (Hlast i Hi)) as [Hcx Hcy].
      rewrite Hcx, Hcy, Hx', Hy'. split; assumption.
    + apply nth_error_None in Hq. rewrite <- (Forall2_length Hreset) in Hq. lia.
Qed.

Lemma reset_round_trip_witness :
  forallb System.duringFormation
    [System.Frame 16 1; System.FormationUpdate [0%nat] (fun _ => 0.5);
     System.MouseMove 990 510; System.FormationUpdate [0%nat] (fun _ => 1)]
  = true /\
  Forall2
    (fun q q' =>
       Element.cx (Particle.element q') = Particle.originalTargetX q /\
       Element.cy (Particle.element q') = Particle.originalTargetY q)
    (System.particles Sample.system)
    (System.particles
       (System.run
          ([System.Frame 16 1; System.FormationUpdate [0%nat] (fun _ => 0.5);
            System.MouseMove 990 510;
            System.FormationUpdate [0%nat] (fun _ => 1)]
           ++ [System.FormationComplete])
          (System.scatterComplete [(0, 0, 2)] Sample.system))).
Proof.
  split; [reflexivity|].
  refine (proj2 (proj2 (proj2
    (reset_round_trip [(0, 0, 2)] Sample.system
       [System.Frame 16 1; System.FormationUpdate [0%nat] (fun _ => 0.5);
        System.MouseMove 990 510; System.FormationUpdate [0%nat] (fun _ => 1)]
       Sample.particle _ _)))).
  - reflexivity.
  - intros i Hi. destruct i as [|i]; [reflexivity|].
    cbn in Hi. lia.
Defined.

(** ** Requests that are ignored *)

(** C6.  A reset requested while [isResetting] is set returns the
    component as it is, and a transformation requested while [isAnimating]
    is set returns the page as it is, so that the pending timeout ends the
    first transformation as if the second request had not been made; a
    request made twice in a row acts once. *)
Theorem reentrant_requests_ignored (st : System.t) (h : Index.t) :
  System.isResetting st = true -> Index.isAnimating h = true ->
  System.resetAnimation st = st /\
  System.resetParticles st = st /\
  Index.handleTransform h = h /\
  Index.transformTimeout (Index.handleTransform h) = Index.transformTimeout h /\
  (forall st0, System.resetAnimation (System.resetAnimation st0)
               = System.resetAnimation st0) /\
  (forall h0, Index.handleTransform (Index.handleTransform h0)
              = Index.handleTransform h0).
Proof.
  intros Hr Ha.
  assert (H1 : System.resetAnimation st = st)
    by (unfold System.resetAnimation; rewrite Hr; reflexivity).
  assert (H2 : Index.handleTransform h = h)
    by (unfold Index.handleTransform; rewrite Ha; reflexivity).
  repeat split; try assumption.
  - rewrite H2. reflexivity.
  - intros st0. destruct (System.isResetting st0) eqn:E.
    + unfold System.resetAnimation. rewrite E. rewrite E. reflexivity.
    + destruct (resetAnimation_starts st0 E) as (Hset & _).
      unfold System.resetAnimation at 1. rewrite Hset. reflexivity.
  - intros h0. unfold Index.handleTransform.
    destruct (Index.isAnimating h0) eqn:E; cbn; rewrite ?E; reflexivity.
Qed.

Lemma reentrant_requests_ignored_witness :
  System.isResetting Sample.resetting = true /\
  Index.isAnimating Sample.page = true /\
  System.resetAnimation Sample.resetting = Sample.resetting /\
  Index.handleTransform Sample.page = Sample.page.
Proof.
  split; [reflexivity|]. split; [reflexivity|].
  pose proof (reentrant_requests_ignored Sample.resetting Sample.page
                eq_refl eq_refl) as (H1 & _ & H2 & _).
  split; [exact H1 | exact H2].
Defined.

(** A first request is not ignored: it schedules the scatter timeline,
    and the page schedules its tween and its timeout. *)
Remark first_requests_act :
  System.resetAnimation Sample.system <> Sample.system /\
  Index.handleTransform (Index.transformTimeout Sample.page)
  <> Index.transformTimeout Sample.page.
Proof.
  split; intros H.
  - apply (f_equal System.isResetting) in H.
    destruct (resetAnimation_starts Sample.system eq_refl) as (Hset & _).
    rewrite Hset in H. discriminate H.
  - apply (f_equal Index.isAnimating) in H. discriminate H.
Qed.

(** C9.  [transformToButterly] returns every component as it is; the
    formation timeline is started by mounting, whatever the particle
    count and whatever [isTransformed]. *)
Theorem transformToButterly_is_a_no_op (st : System.t) (win : Window)
    (draws : nat -> R) (rectLeft rectTop now time : R) (count : Z)
    (transformed : bool) :
  System.transformToButterly st = st /\
  System.step st System.TransformToButterly = st /\
  let mounted :=
    System.mount win draws rectLeft rectTop now time count transformed in
  System.animations mounted
  = [System.FormationTimeline
       (System.batches (length (System.particles mounted)))].
Proof.
  split; [reflexivity|]. split; [reflexivity|].
  apply mount_spec.
Qed.

(** C10.  A click on a component that is not formed, or whose SVG
    reference is missing, returns the component as it is: no ripple, no
    tween, no change to any particle. *)
Theorem click_before_formation_is_a_no_op (clientX clientY : R)
    (st : System.t) :
  System.isFormed st = false \/ System.svgRef st = None ->
  System.handleClick clientX clientY st = st /\
  System.svgRef (System.handleClick clientX clientY st) = System.svgRef st /\
  System.particles (System.handleClick clientX clientY st)
  = System.particles st /\
  System.animations (System.handleClick clientX clientY st)
  = System.animations st.
Proof.
  intros H.
  assert (E : System.handleClick clientX clientY st = st).
  { unfold System.handleClick. destruct (System.svgRef st) as [svg|].
    - destruct H as [H|H]; [rewrite H; reflexivity | discriminate H].
    - reflexivity. }
  rewrite E. repeat split.
Qed.

Lemma click_before_formation_is_a_no_op_witness :
  (System.isFormed Sample.forming = false \/ System.svgRef Sample.forming = None) /\
  System.handleClick 990 510 Sample.forming = Sample.forming.
Proof.
  split; [left; reflexivity|].
  apply (click_before_formation_is_a_no_op 990 510 Sample.forming).
  left. reflexivity.
Defined.

(** Once the component is formed and has its surface, a click does spawn
    a ripple ring at the clicked point. *)
Remark click_when_formed_spawns_ripple (clientX clientY : R) (st : System.t)
    (svg : System.Svg) :
  System.svgRef st = Some svg -> System.isFormed st = true ->
  exists svg',
    System.svgRef (System.handleClick clientX clientY st) = Some svg' /\
    System.ripples svg'
    = System.ripples svg
      ++ [{| System.ripple_cx := clientX - System.left svg;
             System.ripple_cy := clientY - System.top svg |}].
Proof.
  intros Hsvg Hf. unfold System.handleClick, System.createRippleEffect.
  rewrite Hsvg, Hf. cbn. eexists. split; reflexivity.
Qed.

(** * Further properties of the component *)

(** ** Easing *)

Lemma pow2_pos (e : R) : 0 < JS.Math_pow2 e.
Proof. unfold JS.Math_pow2, Rpower. apply exp_pos. Qed.

Lemma pow2_le_1 (e : R) : e <= 0 -> JS.Math_pow2 e <= 1.
Proof.
  intros He. unfold JS.Math_pow2. destruct He as [He | ->].
  - left. rewrite <- (Rpower_O 2) by lra. apply Rpower_lt; lra.
  - right. apply Rpower_O. lra.
Qed.

Lemma pow2_monotone (a b : R) : a <= b -> JS.Math_pow2 a <= JS.Math_pow2 b.
Proof.
  intros [H | ->]; [left | right; reflexivity].
  unfold JS.Math_pow2. apply Rpower_lt; lra.
Qed.

Lemma easeOutExpo_range (t : R) :
  0 <= t -> 0 <= Motion.easeOutExpo t <= 1.
Proof.
  intros Ht. unfold Motion.easeOutExpo. destruct (JS.eqb t 1); [lra|].
  pose proof (pow2_pos (-10 * t)). pose proof (pow2_le_1 (-10 * t)). lra.
Qed.

(** X1.  [easeOutExpo] starts at 0, ends at 1, stays within [0, 1] on
    [0, 1] and never decreases there. *)
Theorem easeOutExpo_monotone (t1 t2 : R) :
  0 <= t1 -> t1 <= t2 -> t2 <= 1 ->
  Motion.easeOutExpo 0 = 0 /\ Motion.easeOutExpo 1 = 1 /\
  0 <= Motion.easeOutExpo t1 /\
  Motion.easeOutExpo t1 <= Motion.easeOutExpo t2 /\
  Motion.easeOutExpo t2 <= 1.
Proof.
  intros H0 H12 H1.
  assert (Hzero : Motion.easeOutExpo 0 = 0).
  { unfold Motion.easeOutExpo, JS.eqb.
    destruct (Req_dec_T 0 1) as [E|_]; [lra|].
    rewrite Rmult_0_r. unfold JS.Math_pow2. rewrite Rpower_O by lra. ring. }
  assert (Hrange : forall t, 0 <= t ->
            0 <= Motion.easeOutExpo t <= 1).
  { intros t Ht. unfold Motion.easeOutExpo. destruct (JS.eqb t 1); [lra|].
    pose proof (pow2_pos (-10 * t)). pose proof (pow2_le_1 (-10 * t)). lra. }
  split; [exact Hzero|]. split; [exact easeOutExpo_1|].
  split; [apply Hrange; exact H0|]. split; [|apply Hrange; lra].
  unfold Motion.easeOutExpo, JS.eqb.
  destruct (Req_dec_T t2 1) as [E2|N2].
  - destruct (Req_dec_T t1 1) as [E1|N1]; [lra|].
    pose proof (pow2_pos (-10 * t1)). lra.
  - destruct (Req_dec_T t1 1) as [E1|N1]; [lra|].
    pose proof (pow2_monotone (-10 * t2) (-10 * t1)). lra.
Qed.

Lemma easeOutExpo_monotone_witness :
  0 <= 0.25 /\ 0.25 <= 0.5 /\ 0.5 <= 1 /\
  Motion.easeOutExpo 0.25 <= Motion.easeOutExpo 0.5.
Proof.
  split; [lra|]. split; [lra|]. split; [lra|].
  apply (easeOutExpo_monotone 0.25 0.5); lra.
Defined.

(** ** Idle drift *)

(** X2.  [updateFloating] draws a formed particle on the ellipse of
    half-axes [floatAmplitude] and [0.6 * floatAmplitude] centred at its
    target displaced by the mouse offset. *)
Theorem idle_drift_on_ellipse (time : R) (ps : list Particle.t) :
  Forall2
    (fun p p' =>
       if Particle.formed p then
         let dx := Element.cx (Particle.element p')
                   - (Particle.targetX p + Particle.mouseOffsetX p) in
         let dy := Element.cy (Particle.element p')
                   - (Particle.targetY p + Particle.mouseOffsetY p) in
         dx * dx + (dy / 0.6) * (dy / 0.6)
         = Particle.floatAmplitude p * Particle.floatAmplitude p /\
         Rabs dx <= Rabs (Particle.floatAmplitude p) /\
         Rabs dy <= 0.6 * Rabs (Particle.floatAmplitude p)
       else p' = p)
    ps (Motion.updateFloating time ps).
Proof.
  unfold Motion.updateFloating. apply Forall2_map_same. intros p.
  unfold Motion.floatParticle, Motion.idleOffsetX, Motion.idleOffsetY.
  destruct (Particle.formed p); [|reflexivity]. cbn.
  set (a := time * Particle.floatSpeed p + Particle.floatPhase p).
  set (A := Particle.floatAmplitude p).
  pose proof (sin2_cos2 a) as Hsc. unfold Rsqr in Hsc.
  pose proof (SIN_bound a) as [Hs1 Hs2]. pose proof (COS_bound a) as [Hc1 Hc2].
  replace (Particle.targetX p + sin a * A + Particle.mouseOffsetX p
           - (Particle.targetX p + Particle.mouseOffsetX p))
    with (sin a * A) by ring.
  replace (Particle.targetY p + cos a * A * 0.6 + Particle.mouseOffsetY p
           - (Particle.targetY p + Particle.mouseOffsetY p))
    with (0.6 * (cos a * A)) by ring.
  assert (Hs : Rabs (sin a * A) <= Rabs A).
  { rewrite Rabs_mult. rewrite <- (Rmult_1_l (Rabs A)) at 2.
    apply Rmult_le_compat_r; [apply Rabs_pos|]. apply Rabs_le. lra. }
  assert (Hc : Rabs (cos a * A) <= Rabs A).
  { rewrite Rabs_mult. rewrite <- (Rmult_1_l (Rabs A)) at 2.
    apply Rmult_le_compat_r; [apply Rabs_pos|]. apply Rabs_le. lra. }
  split; [|split].
  - replace (0.6 * (cos a * A) / 0.6) with (cos a * A) by (field; lra).
    transitivity ((sin a * sin a + cos a * cos a) * (A * A)); [ring|].
    rewrite Hsc. ring.
  - exact Hs.
  - rewrite Rabs_mult, (Rabs_pos_eq 0.6) by lra.
    apply Rmult_le_compat_l; [lra | exact Hc].
Qed.

(** ** Spawn points *)

Lemma Math_floor_bounds (r : R) (lo hi : Z) :
  IZR lo <= r -> r < IZR hi -> (lo <= JS.Math_floor r < hi)%Z.
Proof.
  intros Hlo Hhi. unfold JS.Math_floor.
  destruct (base_Int_part r) as [H1 H2]. split.
  - assert (lo - 1 < Int_part r)%Z; [|lia].
    apply lt_IZR. rewrite minus_IZR. lra.
  - apply lt_IZR. lra.
Qed.

Lemma getEdgePosition_on_edge (st : System.t) :
  (forall k, 0 <= System.random st k < 1) ->
  0 < innerWidth (System.window st) -> 0 < innerHeight (System.window st) ->
  System.onEdge (System.window st) (fst (System.getEdgePosition st)) /\
  snd (System.getEdgePosition st)
  = System.set_randomCalls (System.randomCalls st + 2) st.
Proof.
  intros Hd Hw Hh. unfold System.getEdgePosition. cbn [System.Math_random].
  pose proof (Hd (System.randomCalls st)) as Hu.
  pose proof (Hd (S (System.randomCalls st))) as Hv.
  set (u := System.random st (System.randomCalls st)) in *.
  destruct (Math_floor_bounds (u * 4) 0 4) as [Hs0 Hs4]; [lra | lra |].
  replace (System.randomCalls st + 2)%nat
    with (S (S (System.randomCalls st))) by lia.
  destruct (Z.eqb_spec (JS.Math_floor (u * 4)) 0);
    [|destruct (Z.eqb_spec (JS.Math_floor (u * 4)) 1);
      [|destruct (Z.eqb_spec (JS.Math_floor (u * 4)) 2);
        [|destruct (Z.eqb_spec (JS.Math_floor (u * 4)) 3); [|lia]]]];
    cbn; (split; [|reflexivity]).
  - left. split; [lra | nra].
  - right. left. split; [lra | nra].
  - right. right. left. split; [lra | nra].
  - right. right. right. split; [lra | nra].
Qed.

(** X3.  With draws of [Math.random()] in [0, 1) and a window of positive
    size, [getEdgePosition] takes two draws and returns a point 150 pixels
    outside one side of the window, level with that side. *)
Theorem getEdgePosition_outside_window (st : System.t) :
  (forall k, 0 <= System.random st k < 1) ->
  0 < innerWidth (System.window st) -> 0 < innerHeight (System.window st) ->
  System.onEdge (System.window st) (fst (System.getEdgePosition st)) /\
  System.randomCalls (snd (System.getEdgePosition st))
  = (System.randomCalls st + 2)%nat /\
  snd (System.getEdgePosition st)
  = System.set_randomCalls (System.randomCalls st + 2) st.
Proof.
  intros Hd Hw Hh.
  destruct (getEdgePosition_on_edge st Hd Hw Hh) as [He Hs].
  split; [exact He|]. rewrite Hs. split; reflexivity.
Qed.

Lemma sample_draws (k : nat) : 0 <= System.random Sample.system k < 1.
Proof. cbn. lra. Qed.

Lemma sample_width : 0 < innerWidth (System.window Sample.system).
Proof. cbn. lra. Qed.

Lemma sample_height : 0 < innerHeight (System.window Sample.system).
Proof. cbn. lra. Qed.

Lemma getEdgePosition_outside_window_witness :
  (forall k, 0 <= System.random Sample.system k < 1) /\
  System.onEdge Sample.win (fst (System.getEdgePosition Sample.system)) /\
  System.randomCalls (snd (System.getEdgePosition Sample.system)) = 2%nat.
Proof.
  split; [exact sample_draws|].
  destruct (getEdgePosition_outside_window Sample.system
              sample_draws sample_width sample_height) as (H1 & H2 & _).
  split; [exact H1 | exact H2].
Defined.

(** ** Batches of the formation timeline *)

Lemma batches_prefix (n m : nat) :
  concat
    (map (fun k => seq (k * System.batchSize)
                     (Nat.min System.batchSize (n - k * System.batchSize)))
         (seq 0 m))
  = seq 0 (Nat.min n (m * System.batchSize)).
Proof.
  induction m as [|m IH].
  - cbn. rewrite Nat.min_0_r. reflexivity.
  - rewrite seq_S, map_app, concat_app, IH. cbn [map concat Nat.add].
    rewrite app_nil_r.
    destruct (Nat.le_gt_cases n (m * System.batchSize)) as [Hle|Hgt].
    + replace (n - m * System.batchSize)%nat with 0%nat by lia.
      rewrite Nat.min_0_r. cbn [seq]. rewrite app_nil_r. f_equal.
      cbn [Nat.mul]. lia.
    + rewrite (Nat.min_r n (m * System.batchSize)) by lia.
      rewrite <- seq_app. f_equal. cbn [Nat.mul]. lia.
Qed.

(** X4.  The batches of [animateFormation] are the particle indices in
    order, each index in exactly one batch, fifty to a batch except the
    last, which is not empty. *)
Theorem batches_partition (n : nat) :
  concat (System.batches n) = seq 0 n /\
  Forall (fun b => (1 <= length b <= 50)%nat) (System.batches n) /\
  (length (System.batches n) = (n + 49) / 50)%nat.
Proof.
  unfold System.batches. split; [|split].
  - rewrite batches_prefix. f_equal. unfold System.batchSize.
    pose proof (Nat.div_mod_eq (n + (50 - 1)) 50).
    pose proof (Nat.mod_upper_bound (n + (50 - 1)) 50). lia.
  - apply Forall_forall. intros b Hb. apply in_map_iff in Hb.
    destruct Hb as (k & <- & Hk). apply in_seq in Hk.
    rewrite length_seq. unfold System.batchSize in *.
    pose proof (Nat.div_mod_eq (n + (50 - 1)) 50).
    pose proof (Nat.mod_upper_bound (n + (50 - 1)) 50). lia.
  - rewrite length_map, length_seq. reflexivity.
Qed.

(** ** Freshly created particles *)

Lemma createParticle_fresh (acc : list Particle.t) (st : System.t)
    (point : ButterflyPoint.t) :
  (forall k, 0 <= System.random st k < 1) ->
  0 < innerWidth (System.window st) -> 0 < innerHeight (System.window st) ->
  exists q k,
    System.createParticle (acc, st) point
    = (acc ++ [q], System.set_randomCalls k st) /\
    System.fresh (System.window st) point q.
Proof.
  intros Hd Hw Hh. unfold System.createParticle. cbn [System.Math_random].
  set (st1 := System.set_randomCalls (S (System.randomCalls st)) st).
  destruct (getEdgePosition_on_edge st1 Hd Hw Hh) as [He Hs].
  destruct (System.getEdgePosition st1) as [[sx sy] st2].
  cbn [fst snd] in He, Hs. subst st2. cbn [System.Math_random].
  eexists _, _. split; [reflexivity|].
  pose proof (Hd (System.randomCalls st)) as H1.
  pose proof (Hd (System.randomCalls st1 + 2)%nat) as H2.
  pose proof (Hd (S (System.randomCalls st1 + 2))) as H3.
  pose proof (Hd (S (S (System.randomCalls st1 + 2)))) as H4.
  pose proof PI_RGT_0 as Hpi.
  unfold System.fresh. cbn in *.
  repeat split; try reflexivity; try exact He; try lra; try nra.
Qed.

Lemma createParticle_fold_fresh (points : list ButterflyPoint.t)
    (acc : list Particle.t) (st : System.t) :
  (forall k, 0 <= System.random st k < 1) ->
  0 < innerWidth (System.window st) -> 0 < innerHeight (System.window st) ->
  exists qs k,
    fold_left System.createParticle points (acc, st)
    = (acc ++ qs, System.set_randomCalls k st) /\
    Forall2 (System.fresh (System.window st)) points qs.
Proof.
  intros Hd Hw Hh. revert acc st Hd Hw Hh.
  induction points as [|p points IH]; intros acc st Hd Hw Hh.
  - exists [], (System.randomCalls st). cbn. rewrite app_nil_r.
    split; [destruct st; reflexivity | constructor].
  - cbn [fold_left].
    destruct (createParticle_fresh acc st p Hd Hw Hh) as (q & k & -> & Hq).
    destruct (IH (acc ++ [q]) (System.set_randomCalls k st) Hd Hw Hh)
      as (qs & k' & -> & HF).
    exists (q :: qs), k'. rewrite <- app_assoc.
    split; [reflexivity | constructor; assumption].
Qed.

Lemma animate_environment (now time : R) (st : System.t) :
  System.random (System.animate now time st) = System.random st /\
  System.window (System.animate now time st) = System.window st /\
  System.particleCount (System.animate now time st) = System.particleCount st /\
  System.svgRef (System.animate now time st) = System.svgRef st.
Proof.
  unfold System.animate. split_ifs; cbn; repeat split; reflexivity.
Qed.

(** X5.  With draws in [0, 1) and a window of positive size, the mounted
    component has, for every point of the shape in order, a particle
    aimed at that point, of its type and color, at rest (progress 0, not
    formed, no mouse offset), drawn at a start point on the edge outside
    the window, with radius in [1.5, 3), speed in [0.015, 0.035), float
    phase in [0, 2 PI), float speed in [0.5, 1) and float amplitude 2 for
    a body point, 4 otherwise. *)
Theorem mounted_particles_are_fresh (win : Window) (draws : nat -> R)
    (rectLeft rectTop now time : R) (count : Z) (transformed : bool) :
  (forall k, 0 <= draws k < 1) -> 0 < innerWidth win -> 0 < innerHeight win ->
  Forall2 (System.fresh win)
    (Shape.generateButterflyShape win count)
    (System.particles
       (System.mount win draws rectLeft rectTop now time count transformed)).
Proof.
  intros Hd Hw Hh. unfold System.mount.
  set (st0 := System.set_svgRef _ (System.firstRender win draws count transformed)).
  destruct (animate_environment now time st0) as (Hr & Hwin & Hcount & Hsvg).
  set (st1 := System.animate now time st0) in *.
  unfold System.initEffect, System.createParticleSystem. rewrite Hsvg. cbn [System.svgRef st0 System.set_svgRef].
  set (pts := Shape.generateButterflyShape (System.window st1)
                (System.particleCount st1)).
  destruct (createParticle_fold_fresh pts []
              (System.set_butterflyPoints pts st1)) as (qs & k & -> & HF).
  - cbn. rewrite Hr. exact Hd.
  - cbn. rewrite Hwin. exact Hw.
  - cbn. rewrite Hwin. exact Hh.
  - cbn in HF. unfold pts in HF. rewrite Hwin, Hcount in HF. cbn in HF.
    unfold System.setupCanvas, System.animateFormation.
    cbn [System.svgRef System.set_animations System.set_formationProgress
         System.set_isFormed System.set_particles System.set_randomCalls
         System.set_butterflyPoints System.animations System.particles].
    rewrite Hsvg. cbn. exact HF.
Qed.

Lemma mounted_particles_are_fresh_witness :
  (forall k : nat, 0 <= (fun _ : nat => 0.5) k < 1) /\
  Forall2 (System.fresh Sample.win)
    (Shape.generateButterflyShape Sample.win 1500)
    (System.particles
       (System.mount Sample.win (fun _ => 0.5) 0 0 16 1 1500 false)).
Proof.
  assert (Hd : forall k : nat, 0 <= (fun _ : nat => 0.5) k < 1)
    by (intros k; cbn; lra).
  split; [exact Hd|].
  apply (mounted_particles_are_fresh Sample.win (fun _ => 0.5) 0 0 16 1 1500
           false Hd); cbn; lra.
Defined.

(** ** What no event changes *)

Lemma Forall2_mapi_same {A : Type} (P : A -> A -> Prop) (f : nat -> A -> A)
    (l : list A) :
  (forall i a, P a (f i a)) -> Forall2 P l (JS.mapi f l).
Proof. intros H. apply Forall2_mapi_from. exact H. Qed.

Lemma Forall2_then {A B : Type} (P : A -> B -> Prop) (Q : B -> B -> Prop)
    (S : A -> B -> Prop) (l1 : list A) (l2 l3 : list B) :
  (forall a b c, P a b -> Q b c -> S a c) ->
  Forall2 P l1 l2 -> Forall2 Q l2 l3 -> Forall2 S l1 l3.
Proof.
  intros Hcomp H12. revert l3.
  induction H12 as [|a b l1 l2 Hab _ IH]; intros l3 H23; inversion H23; subst;
    constructor; eauto.
Qed.

(** The identity of a particle is kept, and a particle aimed at its
    original target stays aimed at it. *)
Lemma kept_refl (p : Particle.t) :
  System.sameIdentity p p /\ (System.aimed p -> System.aimed p).
Proof.
  unfold System.sameIdentity. split; [repeat split; reflexivity | tauto].
Qed.

Lemma sameIdentity_trans (a b c : Particle.t) :
  System.sameIdentity a b -> System.sameIdentity b c -> System.sameIdentity a c.
Proof.
  unfold System.sameIdentity.
  intros (?&?&?&?&?&?&?&?&?) (?&?&?&?&?&?&?&?&?). repeat split; congruence.
Qed.

Lemma kept_trans (a b c : Particle.t) :
  System.sameIdentity a b /\ (System.aimed a -> System.aimed b) ->
  System.sameIdentity b c /\ (System.aimed b -> System.aimed c) ->
  System.sameIdentity a c /\ (System.aimed a -> System.aimed c).
Proof.
  unfold System.sameIdentity. intros [H1 A1] [H2 A2]. split; [|auto].
  destruct H1 as (?&?&?&?&?&?&?&?&?). destruct H2 as (?&?&?&?&?&?&?&?&?).
  repeat split; congruence.
Qed.

Lemma updateParticlePosition_kept (p : Particle.t) :
  System.sameIdentity p (Motion.updateParticlePosition p) /\
  (System.aimed p -> System.aimed (Motion.updateParticlePosition p)).
Proof.
  unfold Motion.updateParticlePosition, Motion.curvePoint,
    System.sameIdentity, System.aimed. cbn.
  destruct (JS.gtb (Particle.progress p) 0.95 && negb (Particle.formed p));
    cbn; repeat split; tauto.
Qed.

Lemma tweenParticle_kept (batch : list nat) (value : nat -> R) (i : nat)
    (p : Particle.t) :
  System.sameIdentity p (System.tweenParticle batch value i p) /\
  (System.aimed p -> System.aimed (System.tweenParticle batch value i p)).
Proof.
  unfold System.tweenParticle.
  destruct (existsb (Nat.eqb i) batch); [|apply kept_refl].
  destruct (JS.gtb _ 0).
  - apply kept_trans with (b := Particle.set_progress (value i) p);
      [|apply updateParticlePosition_kept].
    unfold System.sameIdentity, System.aimed. cbn. repeat split; tauto.
  - unfold System.sameIdentity, System.aimed. cbn. repeat split; tauto.
Qed.

Lemma floatParticle_kept (time : R) (p : Particle.t) :
  System.sameIdentity p (Motion.floatParticle time p) /\
  (System.aimed p -> System.aimed (Motion.floatParticle time p)).
Proof.
  unfold Motion.floatParticle, System.sameIdentity, System.aimed.
  destruct (Particle.formed p); cbn; repeat split; tauto.
Qed.

Lemma attractParticle_kept (win : Window) (mx my : R) (p : Particle.t) :
  System.sameIdentity p (fst (Motion.attractParticle win mx my p)) /\
  (System.aimed p -> System.aimed (fst (Motion.attractParticle win mx my p))).
Proof.
  unfold Motion.attractParticle, System.sameIdentity, System.aimed.
  destruct (Particle.formed p); cbn; [|repeat split; tauto].
  destruct (JS.ltb _ 120); cbn; repeat split; tauto.
Qed.

Lemma rippleParticle_kept (x y : R) (p : Particle.t) :
  System.sameIdentity p (fst (Motion.rippleParticle x y p)) /\
  (System.aimed p -> System.aimed (fst (Motion.rippleParticle x y p))).
Proof.
  unfold Motion.rippleParticle, System.sameIdentity, System.aimed.
  destruct (Particle.formed p); cbn; [|repeat split; tauto].
  destruct (JS.ltb _ 100); cbn; repeat split; tauto.
Qed.

Lemma rescatter_fold_kept (ps acc : list Particle.t) (st : System.t) :
  exists ps' k,
    fold_left System.rescatter ps (acc, st)
    = (acc ++ ps', System.set_randomCalls k st) /\
    Forall2 (fun p p' => System.sameIdentity p p' /\ System.aimed p') ps ps'.
Proof.
  revert acc st. induction ps as [|p ps IH]; intros acc st.
  - exists [], (System.randomCalls st). cbn. rewrite app_nil_r.
    split; [destruct st; reflexivity | constructor].
  - cbn [fold_left]. unfold System.rescatter at 2.
    destruct (getEdgePosition_draws st) as (pos & k & ->).
    edestruct IH as (ps' & k' & -> & HF).
    eexists (_ :: ps'), k'. rewrite <- app_assoc. split; [reflexivity|].
    constructor; [|exact HF].
    unfold System.sameIdentity, System.aimed. cbn. repeat split; reflexivity.
Qed.

Lemma scatterComplete_kept (moves : list (R * R * R)) (st : System.t) :
  Forall2 (fun p p' => System.sameIdentity p p' /\ System.aimed p')
    (System.particles st)
    (System.particles (System.scatterComplete moves st)).
Proof.
  unfold System.scatterComplete, System.scatterOnComplete.
  cbn [System.particles System.set_particles].
  edestruct rescatter_fold_kept as (ps' & k & -> & HF). cbn.
  apply Forall2_compose
    with (P := fun p p' => System.sameIdentity p p')
         (Q := fun p p' => System.sameIdentity p p' /\ System.aimed p')
         (l2 := System.scatterEnd moves (System.particles st)).
  - intros a b c Hab [Hbc Hc]. split; [|exact Hc].
    apply (sameIdentity_trans a b c); assumption.
  - unfold System.scatterEnd. apply Forall2_mapi_same. intros i p.
    destruct (nth_error moves i) as [[[x y] d]|];
      unfold System.sameIdentity; cbn; repeat split; reflexivity.
  - exact HF.
Qed.

Lemma step_kept (e : System.Event) (st : System.t) :
  Forall2
    (fun p p' => System.sameIdentity p p' /\ (System.aimed p -> System.aimed p'))
    (System.particles st) (System.particles (System.step st e)).
Proof.
  destruct e; cbn [System.step].
  - apply Forall2_mapi_same. intros i p. apply tweenParticle_kept.
  - apply Forall2_same, kept_refl.
  - apply Forall2_same, kept_refl.
  - destruct (animate_particles now time st) as [-> | ->].
    + apply Forall2_same, kept_refl.
    + apply Forall2_map_same. intros p. apply floatParticle_kept.
  - destruct (handleMouseMove_particles clientX clientY st)
      as [-> | (mx & my & ->)].
    + apply Forall2_same, kept_refl.
    + apply Forall2_map_same. intros p. apply attractParticle_kept.
  - destruct (handleClick_particles clientX clientY st)
      as [-> | (cx & cy & ->)].
    + apply Forall2_same, kept_refl.
    + apply Forall2_map_same. intros p. apply rippleParticle_kept.
  - apply Forall2_same, kept_refl.
  - unfold System.resetParticles. destruct (System.isResetting st) eqn:Hr.
    + unfold System.resetAnimation. rewrite Hr. apply Forall2_same, kept_refl.
    + destruct (resetAnimation_starts st Hr) as (_ & _ & -> & _).
      apply Forall2_same, kept_refl.
  - eapply Forall2_impl; [|apply scatterComplete_kept].
    cbn. intros a b [H1 H2]. split; auto.
Qed.

Lemma run_kept (events : list System.Event) (st : System.t) :
  Forall2
    (fun p p' => System.sameIdentity p p' /\ (System.aimed p -> System.aimed p'))
    (System.particles st) (System.particles (System.run events st)).
Proof.
  revert st. induction events as [|e events IH]; intros st.
  - apply Forall2_same, kept_refl.
  - cbn [System.run fold_left].
    eapply Forall2_compose; [| apply (step_kept e st) | apply IH].
    apply kept_trans.
Qed.

(** X6.  Whatever happens to a component (timeline ticks, frames, mouse
    moves, clicks, resets and their completion), the particles stay the
    same in number and each keeps its type, radius, color, speed, float
    parameters and original target. *)
Theorem events_keep_particle_identity (events : list System.Event)
    (st : System.t) :
  length (System.particles (System.run events st))
  = length (System.particles st) /\
  Forall2 System.sameIdentity
    (System.particles st) (System.particles (System.run events st)).
Proof.
  pose proof (run_kept events st) as H. split.
  - symmetry. apply (Forall2_length H).
  - eapply Forall2_impl; [|exact H]. cbn. intros a b [Hab _]. exact Hab.
Qed.

(** X7.  After mounting, whatever happens to the component, every
    particle is still aimed at the point of the shape it was created for:
    no handler moves a target. *)
Theorem targets_never_move (events : list System.Event) (win : Window)
    (draws : nat -> R) (rectLeft rectTop now time : R) (count : Z)
    (transformed : bool) :
  let mounted :=
    System.mount win draws rectLeft rectTop now time count transformed in
  Forall2
    (fun point q =>
       Particle.targetX q = ButterflyPoint.x point /\
       Particle.targetY q = ButterflyPoint.y point /\
       Particle.type q = ButterflyPoint.type point)
    (Shape.generateButterflyShape win count)
    (System.particles (System.run events mounted)).
Proof.
  intros mounted.
  assert (Hm : Forall2
            (fun point q =>
               (Particle.originalTargetX q = ButterflyPoint.x point /\
                Particle.originalTargetY q = ButterflyPoint.y point /\
                Particle.type q = ButterflyPoint.type point) /\ System.aimed q)
            (Shape.generateButterflyShape win count) (System.particles mounted)).
  { unfold mounted, System.mount.
    set (st0 := System.set_svgRef _
                  (System.firstRender win draws count transformed)).
    destruct (animate_environment now time st0) as (_ & Hwin & Hcount & Hsvg).
    set (st1 := System.animate now time st0) in *.
    unfold System.initEffect, System.createParticleSystem. rewrite Hsvg.
    cbn [System.svgRef st0 System.set_svgRef].
    rewrite Hwin, Hcount. cbn [System.window System.particleCount st0
      System.set_svgRef System.firstRender].
    set (pts := Shape.generateButterflyShape win count).
    assert (G : forall l acc s, exists qs k,
               fold_left System.createParticle l (acc, s)
               = (acc ++ qs, System.set_randomCalls k s) /\
               Forall2
                 (fun point q =>
                    (Particle.originalTargetX q = ButterflyPoint.x point /\
                     Particle.originalTargetY q = ButterflyPoint.y point /\
                     Particle.type q = ButterflyPoint.type point) /\
                    System.aimed q) l qs).
    { induction l as [|p l IH]; intros acc s.
      - exists [], (System.randomCalls s). cbn. rewrite app_nil_r.
        split; [destruct s; reflexivity | constructor].
      - cbn [fold_left]. unfold System.createParticle at 2.
        cbn [System.Math_random].
        destruct (getEdgePosition_draws
                    (System.set_randomCalls (S (System.randomCalls s)) s))
          as (pos & k & ->).
        cbn [System.Math_random].
        edestruct IH as (qs & k' & -> & HF).
        eexists (_ :: qs), k'. rewrite <- app_assoc. split; [reflexivity|].
        constructor; [|exact HF]. unfold System.aimed. cbn.
        repeat split; reflexivity. }
    destruct (G pts [] (System.set_butterflyPoints pts st1))
      as (qs & k & -> & HF).
    unfold System.setupCanvas, System.animateFormation.
    cbn [System.svgRef System.set_animations System.set_formationProgress
         System.set_isFormed System.set_particles System.set_randomCalls
         System.set_butterflyPoints System.animations System.particles].
    rewrite Hsvg. cbn. exact HF. }
  eapply Forall2_then; [| exact Hm | apply (run_kept events mounted)].
  cbn. intros point q q' [(Hx & Hy & Ht) [Ax Ay]] [Hid Haim].
  destruct (Haim (conj Ax Ay)) as [Ax' Ay'].
  unfold System.sameIdentity in Hid.
  destruct Hid as (Ht' & _ & _ & _ & _ & _ & _ & Hox & Hoy).
  repeat split; congruence.
Qed.

(** ** Handlers without a surface *)

Lemma step_without_surface (e : System.Event) (st : System.t) :
  System.svgRef st = None -> System.svgRef (System.step st e) = None.
Proof.
  intros H. destruct e; cbn [System.step]; try exact H.
  - destruct (animate_environment now time st) as (_ & _ & _ & ->). exact H.
  - unfold System.handleMouseMove. rewrite H. exact H.
  - unfold System.handleClick. rewrite H. exact H.
  - unfold System.resetParticles, System.resetAnimation.
    destruct (System.isResetting st); [exact H|].
    edestruct scatterMove_fold as (moves & k & ->). cbn. exact H.
  - unfold System.scatterComplete, System.scatterOnComplete.
    cbn [System.particles System.set_particles].
    edestruct rescatter_fold as (ps' & k & -> & _). cbn. exact H.
Qed.

(** X8.  Without the SVG reference, creating the particle system, the
    initialisation effect, the canvas effect, a mouse move and a ripple
    leave the component as it is, and no particle system is returned; and
    nothing that happens to the component attaches a surface. *)
Theorem handlers_need_the_surface (x y : R) (events : list System.Event)
    (st : System.t) :
  System.svgRef st = None ->
  System.createParticleSystem st = (None, st) /\
  System.initEffect st = st /\
  System.setupCanvas st = st /\
  System.handleMouseMove x y st = st /\
  System.createRippleEffect x y st = st /\
  System.svgRef (System.run events st) = None.
Proof.
  intros H.
  unfold System.initEffect, System.createParticleSystem, System.setupCanvas,
    System.handleMouseMove, System.createRippleEffect.
  rewrite H. repeat split.
  revert st H. induction events as [|e events IH]; intros st H; [exact H|].
  cbn [System.run fold_left]. apply IH. apply step_without_surface. exact H.
Qed.

Lemma handlers_need_the_surface_witness :
  System.svgRef (System.firstRender Sample.win (fun _ => 0) 1500 false) = None /\
  System.initEffect (System.firstRender Sample.win (fun _ => 0) 1500 false)
  = System.firstRender Sample.win (fun _ => 0) 1500 false.
Proof.
  split; [reflexivity|].
  apply (handlers_need_the_surface 0 0 []
           (System.firstRender Sample.win (fun _ => 0) 1500 false) eq_refl).
Defined.

(** ** Ripples and mouse moves *)

Lemma ltb_spec (a b : R) : JS.ltb a b = true <-> a < b.
Proof.
  unfold JS.ltb. destruct (Rlt_dec a b); split; intros H;
    (reflexivity || assumption || discriminate || contradiction).
Qed.

Lemma ltb_false (a b : R) : JS.ltb a b = false <-> b <= a.
Proof.
  unfold JS.ltb. destruct (Rlt_dec a b); split; intros H;
    (reflexivity || discriminate || lra).
Qed.

Lemma pulseTweens_none (duration : R) (scales : list (option R)) :
  Forall (fun s => s = None) scales -> System.pulseTweens duration scales = [].
Proof.
  intros H. unfold System.pulseTweens, JS.mapi. generalize 0%nat.
  induction H as [|s scales -> _ IH]; intros k; cbn; [reflexivity | apply IH].
Qed.

(** The distance of a point to the origin, and its coordinates. *)
Lemma distance_facts (dx dy : R) :
  let d := sqrt (dx * dx + dy * dy) in
  0 <= d /\ d * d = dx * dx + dy * dy /\ - d <= dx <= d /\ - d <= dy <= d.
Proof.
  intros d. assert (Hs : 0 <= dx * dx + dy * dy) by nra.
  assert (H0 : 0 <= d) by apply sqrt_pos.
  assert (Hd : d * d = dx * dx + dy * dy) by (apply sqrt_sqrt; exact Hs).
  repeat split; try assumption; nra.
Qed.

(** X9.  On a formed component, a click at 100 pixels or more from the
    target of every formed particle appends one ripple ring at the
    clicked point and starts its tween, and changes no particle and
    starts no pulse. *)
Theorem click_far_from_particles (clientX clientY : R) (st : System.t)
    (svg : System.Svg) :
  System.svgRef st = Some svg -> System.isFormed st = true ->
  (forall p, In p (System.particles st) -> Particle.formed p = true ->
     let dx := clientX - System.left svg - Particle.targetX p in
     let dy := clientY - System.top svg - Particle.targetY p in
     100 <= sqrt (dx * dx + dy * dy)) ->
  let st' := System.handleClick clientX clientY st in
  System.particles st' = System.particles st /\
  System.animations st'
  = System.animations st
    ++ [System.RippleTween (clientX - System.left svg)
          (clientY - System.top svg)] /\
  System.svgRef st'
  = Some {| System.left := System.left svg; System.top := System.top svg;
            System.size := System.size svg;
            System.ripples :=
              System.ripples svg
              ++ [{| System.ripple_cx := clientX - System.left svg;
                     System.ripple_cy := clientY - System.top svg |}] |}.
Proof.
  intros Hsvg Hf Hfar. unfold System.handleClick, System.createRippleEffect.
  rewrite Hsvg, Hf.
  cbn [negb System.particles System.animations System.svgRef
       System.set_particles System.set_animations System.set_svgRef].
  set (x := clientX - System.left svg) in *.
  set (y := clientY - System.top svg) in *.
  assert (H : forall p, In p (System.particles st) ->
            Motion.rippleParticle x y p = (p, None)).
  { intros p Hp. unfold Motion.rippleParticle.
    destruct (Particle.formed p) eqn:E; [|reflexivity].
    specialize (Hfar p Hp E). cbv zeta in Hfar.
    apply ltb_false in Hfar. rewrite Hfar. reflexivity. }
  rewrite !map_map. split; [|split; [|reflexivity]].
  - rewrite <- (map_id (System.particles st)) at 2.
    apply map_ext_in. intros p Hp. rewrite (H p Hp). reflexivity.
  - rewrite pulseTweens_none; [rewrite app_nil_r; reflexivity|].
    apply Forall_forall. intros s Hs. apply in_map_iff in Hs.
    destruct Hs as (p & <- & Hp). rewrite (H p Hp). reflexivity.
Qed.

Lemma click_far_from_particles_witness :
  System.svgRef Sample.system
  = Some {| System.left := 0; System.top := 0;
            System.size := Some (1920, 1080); System.ripples := [] |} /\
  System.particles (System.handleClick 1000 700 Sample.system)
  = System.particles Sample.system.
Proof.
  split; [reflexivity|].
  apply (click_far_from_particles 1000 700 Sample.system _ eq_refl eq_refl).
  intros p [<- | []] _. cbn.
  replace ((1000 - 0 - 1000) * (1000 - 0 - 1000)
           + (700 - 0 - 500) * (700 - 0 - 500)) with (200 * 200) by ring.
  rewrite sqrt_square; lra.
Defined.

(** X10.  A ripple either leaves a particle as it is or pushes it away
    from the clicked point along both axes, by at most 625 pixels on
    each. *)
Theorem ripple_pushes_away (x y : R) (st : System.t) (svg : System.Svg) :
  System.svgRef st = Some svg ->
  Forall2
    (fun p p' =>
       p' = p \/
       (Particle.mouseOffsetX p' * (x - Particle.targetX p) <= 0 /\
        Particle.mouseOffsetY p' * (y - Particle.targetY p) <= 0 /\
        Rabs (Particle.mouseOffsetX p') <= 625 /\
        Rabs (Particle.mouseOffsetY p') <= 625))
    (System.particles st)
    (System.particles (System.createRippleEffect x y st)).
Proof.
  intros Hsvg. unfold System.createRippleEffect. rewrite Hsvg. cbn.
  rewrite map_map. apply Forall2_map_same. intros p.
  unfold Motion.rippleParticle.
  destruct (Particle.formed p); [|left; reflexivity].
  set (dx := x - Particle.targetX p). set (dy := y - Particle.targetY p).
  destruct (JS.ltb (sqrt (dx * dx + dy * dy)) 100) eqn:E; [|left; reflexivity].
  right. apply ltb_spec in E.
  destruct (distance_facts dx dy) as (H0 & Hd & Hx & Hy).
  set (d := sqrt (dx * dx + dy * dy)) in *. cbn.
  set (f := (100 - d) / 100).
  assert (Hf : 0 < f <= 1) by (unfold f; split; lra).
  assert (Hf100 : d * f * 100 = d * (100 - d)) by (unfold f; field).
  pose proof (Rle_0_sqr (d - 50)) as Hsq. unfold Rsqr in Hsq.
  assert (Hdf : d * f * 25 <= 625) by lra.
  clearbody f.
  assert (Hxx : 0 <= dx * dx * f) by (apply Rmult_le_pos; nra).
  assert (Hyy : 0 <= dy * dy * f) by (apply Rmult_le_pos; nra).
  assert (Hx1 : 0 <= (d - dx) * f) by (apply Rmult_le_pos; lra).
  assert (Hx2 : 0 <= (d + dx) * f) by (apply Rmult_le_pos; lra).
  assert (Hy1 : 0 <= (d - dy) * f) by (apply Rmult_le_pos; lra).
  assert (Hy2 : 0 <= (d + dy) * f) by (apply Rmult_le_pos; lra).
  repeat split; try (apply Rabs_le; split); lra.
Qed.

Lemma ripple_pushes_away_witness :
  System.svgRef Sample.system <> None /\
  Forall2
    (fun p p' =>
       p' = p \/
       (Particle.mouseOffsetX p' * (990 - Particle.targetX p) <= 0 /\
        Particle.mouseOffsetY p' * (510 - Particle.targetY p) <= 0 /\
        Rabs (Particle.mouseOffsetX p') <= 625 /\
        Rabs (Particle.mouseOffsetY p') <= 625))
    (System.particles Sample.system)
    (System.particles (System.createRippleEffect 990 510 Sample.system)).
Proof.
  split; [discriminate|].
  apply (ripple_pushes_away 990 510 Sample.system _ eq_refl).
Defined.

(** X11.  A mouse move either leaves a particle as it is or sets its
    mouse offsets to at most 456 pixels on each axis. *)
Theorem mouse_move_offset_bound (clientX clientY : R) (st : System.t) :
  Forall2
    (fun p p' =>
       p' = p \/
       (Rabs (Particle.mouseOffsetX p') <= 456 /\
        Rabs (Particle.mouseOffsetY p') <= 456))
    (System.particles st)
    (System.particles (System.handleMouseMove clientX clientY st)).
Proof.
  destruct (handleMouseMove_particles clientX clientY st)
    as [-> | (mx & my & ->)].
  - apply Forall2_same. auto.
  - apply Forall2_map_same. intros p. unfold Motion.attractParticle.
    destruct (Particle.formed p); cbn [negb]; [|left; reflexivity].
    set (dx := mx - Particle.targetX p). set (dy := my - Particle.targetY p).
    destruct (JS.ltb (sqrt (dx * dx + dy * dy)) 120) eqn:E;
      [|left; reflexivity].
    right. apply ltb_spec in E.
    destruct (distance_facts dx dy) as (H0 & Hd & Hx & Hy).
    set (d := sqrt (dx * dx + dy * dy)) in *.
    set (cx := innerWidth (System.window st) / 2 - Particle.targetX p).
    set (cy := innerHeight (System.window st) / 2 - 50 - Particle.targetY p).
    destruct (distance_facts cx cy) as (C0 & Cd & Cx & Cy).
    set (c := sqrt (cx * cx + cy * cy)) in *. cbn.
    rewrite Rmax_right by (apply Rmult_le_pos; [lra|]; lra).
    set (f := (120 - d) / 120).
    assert (Hf : 0 < f <= 1) by (unfold f; split; lra).
    assert (Hf120 : d * f * 120 = d * (120 - d)) by (unfold f; field).
    pose proof (Rle_0_sqr (d - 60)) as Hsq. unfold Rsqr in Hsq.
    assert (Hdf : d * f * 15 <= 450) by lra.
    clearbody f.
    assert (Hx1 : 0 <= (d - dx) * f) by (apply Rmult_le_pos; lra).
    assert (Hx2 : 0 <= (d + dx) * f) by (apply Rmult_le_pos; lra).
    assert (Hy1 : 0 <= (d - dy) * f) by (apply Rmult_le_pos; lra).
    assert (Hy2 : 0 <= (d + dy) * f) by (apply Rmult_le_pos; lra).
    assert (Hdir : forall t, - c <= t <= c ->
              -1 <= t / (if JS.eqb c 0 then 1 else c) <= 1).
    { intros t Ht. unfold JS.eqb. destruct (Req_dec_T c 0) as [Ec|Nc].
      - rewrite Ec in Ht. lra.
      - assert (0 < c) by lra. split.
        + apply Rmult_le_reg_r with c; [assumption|]. field_simplify; lra.
        + apply Rmult_le_reg_r with c; [assumption|]. field_simplify; lra. }
    pose proof (Hdir cx Cx) as Dx. pose proof (Hdir cy Cy) as Dy.
    set (ux := cx / (if JS.eqb c 0 then 1 else c)) in *.
    set (uy := cy / (if JS.eqb c 0 then 1 else c)) in *.
    clearbody ux uy.
    assert (Hu1 : 0 <= (1 - ux) * f) by (apply Rmult_le_pos; lra).
    assert (Hu2 : 0 <= (1 + ux) * f) by (apply Rmult_le_pos; lra).
    assert (Hv1 : 0 <= (1 - uy) * f) by (apply Rmult_le_pos; lra).
    assert (Hv2 : 0 <= (1 + uy) * f) by (apply Rmult_le_pos; lra).
    split; apply Rabs_le; split; lra.
Qed.

(** ** The animation loop *)

Lemma animate_gate (now time : R) (st : System.t) :
  System.frameCount (System.animate now time st)
  = (System.frameCount st + 1)%Z /\
  System.isFormed (System.animate now time st) = System.isFormed st /\
  System.isResetting (System.animate now time st) = System.isResetting st /\
  System.animations (System.animate now time st) = System.animations st /\
  System.svgRef (System.animate now time st) = System.svgRef st /\
  System.particles (System.animate now time st)
  = (if System.isFormed st && negb (System.isResetting st)
     then Motion.updateFloating time (System.particles st)
     else System.particles st).
Proof.
  unfold System.animate.
  destruct (Z.eqb _ 0); [destruct (JS.eqb _ 0)|]; cbn;
    destruct (System.isFormed st && negb (System.isResetting st));
    cbn; repeat split; reflexivity.
Qed.

(** X12.  A run of frames advances the frame counter by the number of
    frames, starts no animation, keeps the flags and the surface, and
    leaves the particles untouched unless the component is formed and not
    resetting, in which case every frame is one [updateFloating]. *)
Theorem frames_only_float (clocks : list (R * R)) (st : System.t) :
  let st' := System.run (System.frames clocks) st in
  System.frameCount st' = (System.frameCount st + Z.of_nat (length clocks))%Z /\
  System.isFormed st' = System.isFormed st /\
  System.isResetting st' = System.isResetting st /\
  System.animations st' = System.animations st /\
  System.svgRef st' = System.svgRef st /\
  System.particles st'
  = (if System.isFormed st && negb (System.isResetting st)
     then fold_left (fun ps c => Motion.updateFloating (snd c) ps) clocks
            (System.particles st)
     else System.particles st).
Proof.
  revert st. induction clocks as [|[now time] clocks IH]; intros st.
  - cbn. rewrite Z.add_0_r.
    destruct (System.isFormed st && negb (System.isResetting st));
      repeat split; reflexivity.
  - cbn [System.frames map System.run fold_left System.step length].
    destruct (animate_gate now time st) as (Hc & Hf & Hr & Ha & Hs & Hp).
    specialize (IH (System.animate now time st)).
    unfold System.run, System.frames in IH. cbv zeta in IH.
    destruct IH as (Ic & If & Ir & Ia & Is & Ip).
    cbv zeta. rewrite Ic, If, Ir, Ia, Is, Ip, Hc, Hf, Hr, Ha, Hs, Hp.
    cbn [snd].
    destruct (System.isFormed st && negb (System.isResetting st));
      repeat split; try reflexivity; lia.
Qed.

(** ** Statistics *)

Lemma Math_round_bounds (r : R) (lo hi : Z) :
  IZR lo <= r -> r <= IZR hi -> (lo <= System.Math_round r <= hi)%Z.
Proof.
  intros Hlo Hhi. unfold System.Math_round.
  destruct (Math_floor_bounds (r + 0.5) lo (hi + 1)) as [H1 H2].
  - lra.
  - rewrite plus_IZR. lra.
  - lia.
Qed.

(** X13.  [getStats] reports a number of formed particles between 0 and
    the number of particles, equal to it exactly when all are formed, and,
    for a formation progress within [0, 1], a percentage within 0..100. *)
Theorem getStats_bounds (st : System.t) :
  0 <= System.formationProgress st <= 1 ->
  let '(formedCount, percent, rate) := System.getStats st in
  (0 <= formedCount <= Z.of_nat (length (System.particles st)))%Z /\
  (formedCount = Z.of_nat (length (System.particles st)) <->
   Forall (fun p => Particle.formed p = true) (System.particles st)) /\
  (0 <= percent <= 100)%Z /\
  rate = System.fps st.
Proof.
  intros Hp. unfold System.getStats.
  assert (Hlen : forall l : list Particle.t,
            (length (filter Particle.formed l) <= length l)%nat /\
            (length (filter Particle.formed l) = length l <->
             Forall (fun p => Particle.formed p = true) l)).
  { induction l as [|p l [IH1 IH2]]; cbn.
    - split; [lia|]. split; auto.
    - destruct (Particle.formed p) eqn:E; cbn; split; try lia.
      + split.
        * intros H. constructor; [exact E|]. apply IH2. lia.
        * intros H. inversion H; subst. f_equal. apply IH2. assumption.
      + split; [lia|]. intros H. inversion H; subst. congruence. }
  destruct (Hlen (System.particles st)) as [H1 H2].
  split; [lia|]. split.
  - rewrite <- H2. lia.
  - split; [|reflexivity]. apply Math_round_bounds; cbn; lra.
Qed.

Lemma getStats_bounds_witness :
  0 <= System.formationProgress Sample.system <= 1 /\
  (let '(formedCount, percent, rate) := System.getStats Sample.system in
   (0 <= formedCount <= Z.of_nat (length (System.particles Sample.system)))%Z /\
   (formedCount = Z.of_nat (length (System.particles Sample.system)) <->
    Forall (fun p => Particle.formed p = true)
      (System.particles Sample.system)) /\
   (0 <= percent <= 100)%Z /\
   rate = System.fps Sample.system).
Proof.
  assert (H : 0 <= System.formationProgress Sample.system <= 1) by (cbn; lra).
  split; [exact H|].
  apply (getStats_bounds Sample.system H).
Defined.

(** ** The scatter timeline *)

Lemma scatterMove_fold_spec (l : list Particle.t) (acc : list (R * R * R))
    (st : System.t) :
  (forall k, 0 <= System.random st k < 1) ->
  0 < innerWidth (System.window st) -> 0 < innerHeight (System.window st) ->
  exists moves,
    fold_left System.scatterMove l (acc, st)
    = (acc ++ moves,
       System.set_randomCalls (System.randomCalls st + 3 * length l) st) /\
    length moves = length l /\
    Forall (fun m => System.onEdge (System.window st) (fst m) /\
                     2 <= snd m < 2.5) moves.
Proof.
  intros Hd Hw Hh. revert acc st Hd Hw Hh.
  induction l as [|p l IH]; intros acc st Hd Hw Hh.
  - exists []. cbn. rewrite app_nil_r, Nat.add_0_r.
    split; [destruct st; reflexivity|]. split; [reflexivity | constructor].
  - cbn [fold_left]. unfold System.scatterMove at 2.
    destruct (getEdgePosition_on_edge st Hd Hw Hh) as [He Hs].
    destruct (System.getEdgePosition st) as [[ex ey] st1].
    cbn [fst snd] in He, Hs. subst st1. cbn [System.Math_random].
    match goal with
    | |- context [fold_left System.scatterMove l (?a, ?s)] =>
        destruct (IH a s Hd Hw Hh) as (moves & -> & Hlen & HF)
    end.
    eexists (_ :: moves). rewrite <- app_assoc. cbn [app length].
    split; [|split].
    + f_equal. clear. destruct st. unfold System.set_randomCalls.
      cbn -[Nat.mul Nat.add]. f_equal. lia.
    + rewrite Hlen. reflexivity.
    + constructor; [|exact HF]. cbn. split; [exact He|].
      pose proof (Hd (System.randomCalls st + 2)%nat). lra.
Qed.

(** X14.  With draws in [0, 1) and a window of positive size, a reset
    request on a component that is not resetting schedules one scatter
    timeline with one tween per particle, each to a point on the edge
    outside the window and lasting between 2 and 2.5 seconds, and takes
    three draws per particle. *)
Theorem resetAnimation_schedules_scatter (st : System.t) :
  System.isResetting st = false ->
  (forall k, 0 <= System.random st k < 1) ->
  0 < innerWidth (System.window st) -> 0 < innerHeight (System.window st) ->
  exists moves,
    System.animations (System.resetAnimation st)
    = System.animations st ++ [System.ScatterTimeline moves] /\
    length moves = length (System.particles st) /\
    Forall (fun m => System.onEdge (System.window st) (fst m) /\
                     2 <= snd m < 2.5) moves /\
    System.randomCalls (System.resetAnimation st)
    = (System.randomCalls st + 3 * length (System.particles st))%nat.
Proof.
  intros Hr Hd Hw Hh. unfold System.resetAnimation. rewrite Hr.
  destruct (scatterMove_fold_spec
              (System.particles
                 (System.set_formationProgress 0
                    (System.set_isFormed false
                       (System.set_isResetting true st))))
              []
              (System.set_formationProgress 0
                 (System.set_isFormed false (System.set_isResetting true st)))
              Hd Hw Hh) as (moves & -> & Hlen & HF).
  exists moves. cbn in *. repeat split; assumption.
Qed.

Lemma resetAnimation_schedules_scatter_witness :
  System.isResetting Sample.system = false /\
  exists moves,
    System.animations (System.resetAnimation Sample.system)
    = System.animations Sample.system ++ [System.ScatterTimeline moves] /\
    length moves = length (System.particles Sample.system) /\
    Forall (fun m => System.onEdge (System.window Sample.system) (fst m) /\
                     2 <= snd m < 2.5) moves /\
    System.randomCalls (System.resetAnimation Sample.system)
    = (System.randomCalls Sample.system
       + 3 * length (System.particles Sample.system))%nat.
Proof.
  split; [reflexivity|].
  apply (resetAnimation_schedules_scatter Sample.system eq_refl
           sample_draws sample_width sample_height).
Defined.

(** ** More on the shape *)

Lemma In_repeat (d e : R) (k : nat) : In e (repeat d k) <-> k <> 0%nat /\ e = d.
Proof.
  split.
  - intros H. split; [destruct k; [contradiction H | discriminate]|].
    apply (repeat_spec _ _ _ H).
  - intros [Hk ->]. destruct k; [contradiction Hk; reflexivity | left; reflexivity].
Qed.

(** X15.  The generator divides by zero exactly for the counts 7 to 13,
    where the body budget is 1 and the body loop divides by
    [bodyParticles - 1], and 40 to 59, where the antenna budget is 2 and
    the antenna loops divide by [antennaParticles / 2 - 1]. *)
Theorem zero_divisor_counts (win : Window) (n : Z) :
  In 0 (Shape.divisors (Shape.generate win n)) <->
  (7 <= n <= 13)%Z \/ (40 <= n <= 59)%Z.
Proof.
  destruct (generate_spec win n)
    as (lb & la & lu & ll & _ & _ & _ & _ & _ & _ & _ & _ & _ & ->).
  rewrite !in_app_iff, !In_repeat.
  unfold Shape.upperCount, Shape.lowerCount, Shape.antennaCount.
  split.
  - intros [[Hk H] | [[Hk H] | [[Hk H] | [Hk H]]]].
    + left. assert (Shape.bodyBudget n = 1)%Z as E.
      { apply eq_IZR. lra. }
      unfold Shape.bodyBudget in E. zdiv.
    + right. assert (Shape.antennaBudget n = 2)%Z as E.
      { apply eq_IZR. lra. }
      unfold Shape.antennaBudget in E. zdiv.
    + exfalso. apply (pair_divisor_nonzero _ Hk). lra.
    + exfalso. apply (pair_divisor_nonzero _ Hk). lra.
  - intros [H | H].
    + left. assert (Shape.bodyBudget n = 1)%Z as E
        by (unfold Shape.bodyBudget; zdiv).
      rewrite E. split; [discriminate | lra].
    + right. left. assert (Shape.antennaBudget n = 2)%Z as E
        by (unfold Shape.antennaBudget; zdiv).
      rewrite E. split; [discriminate | lra].
Qed.

(** X16.  For a count [n >= 0], the shape has [n] points plus one for
    each of the two wing budgets that is odd; and its body, antenna and
    upper wing parts are within one point of 15% of the count, 5% of the
    count and 60% of the remainder left to the wings, its lower wing part
    within two points of 40% of that remainder. *)
Theorem shape_size_and_parts (win : Window) (n : Z) :
  (0 <= n)%Z ->
  let s := Shape.generateButterflyShape win n in
  let w := (n - (Shape.count body s + Shape.count antenna s))%Z in
  let u := (6 * w / 10)%Z in
  Z.of_nat (length s) = (n + u mod 2 + (w - u) mod 2)%Z /\
  (n <= Z.of_nat (length s) <= n + 2)%Z /\
  (15 * n - 100 < 100 * Shape.count body s <= 15 * n)%Z /\
  (5 * n - 100 < 100 * Shape.count antenna s <= 5 * n + 100)%Z /\
  (6 * w - 10 < 10 * Shape.count upperWing s <= 6 * w + 10)%Z /\
  (4 * w <= 10 * Shape.count lowerWing s < 4 * w + 20)%Z.
Proof.
  intros Hn. destruct (shape_counts win n) as (Hlen & Hb & Ha & Hu & Hl).
  cbv zeta in *. rewrite Hlen, Hb, Ha, Hu, Hl.
  pose proof (partition_bounds n Hn) as (P1 & P2 & P3 & P4 & P5).
  cbv zeta in *.
  change (n - (Shape.bodyCount n + Shape.antennaCount n))%Z
    with (Shape.wingBudget n).
  assert (Hw : (0 <= Shape.wingBudget n)%Z).
  { clear - Hn. unfold Shape.wingBudget, Shape.antennaCount, Shape.pairCount,
      Shape.bodyCount, Shape.antennaBudget, Shape.bodyBudget. zdiv. }
  assert (Hsum : (Shape.bodyCount n + Shape.antennaCount n
                  = n - Shape.wingBudget n)%Z)
    by (unfold Shape.wingBudget; lia).
  split; [|repeat split; lia].
  rewrite Hsum.
  unfold Shape.upperCount, Shape.lowerCount, Shape.pairCount,
    Shape.lowerBudget, Shape.upperBudget.
  clear - Hw. generalize dependent (Shape.wingBudget n). intros w Hw. zdiv.
Qed.

Lemma shape_size_and_parts_witness :
  (0 <= 1500)%Z /\
  (let s := Shape.generateButterflyShape Sample.win 1500 in
   (1500 <= Z.of_nat (length s) <= 1500 + 2)%Z).
Proof.
  split; [lia|].
  pose proof (shape_size_and_parts Sample.win 1500) as H.
  cbv zeta in *. apply H. lia.
Defined.

(** ** The polka-dot grid *)

Lemma Math_floor_shift (r : R) (k : Z) :
  JS.Math_floor (r + IZR k) = (JS.Math_floor r + k)%Z.
Proof.
  unfold JS.Math_floor. symmetry. apply Int_part_spec.
  destruct (base_Int_part r) as [H1 H2]. rewrite plus_IZR. lra.
Qed.

(** X17.  The color of a wing point depends on its offset from the
    centre of the butterfly only, and the pattern repeats every 90 pixels
    (three grid cells) in each direction. *)
Theorem getWingColor_pattern (x y centerX centerY a b : R) (k m : Z) :
  Shape.getWingColor (x + a) (y + b) (centerX + a) (centerY + b)
  = Shape.getWingColor x y centerX centerY /\
  Shape.getWingColor (x + 90 * IZR k) (y + 90 * IZR m) centerX centerY
  = Shape.getWingColor x y centerX centerY.
Proof.
  split.
  - unfold Shape.getWingColor. cbv zeta.
    replace (x + a - (centerX + a) + 200) with (x - centerX + 200) by ring.
    replace (y + b - (centerY + b) + 200) with (y - centerY + 200) by ring.
    set (gx := JS.Math_floor ((x - centerX + 200) / 30)).
    set (gy := JS.Math_floor ((y - centerY + 200) / 30)).
    replace (x + a - (centerX + a - 200 + IZR gx * 30 + 30 / 2))
      with (x - (centerX - 200 + IZR gx * 30 + 30 / 2)) by ring.
    replace (y + b - (centerY + b - 200 + IZR gy * 30 + 30 / 2))
      with (y - (centerY - 200 + IZR gy * 30 + 30 / 2)) by ring.
    reflexivity.
  - unfold Shape.getWingColor. cbv zeta.
    replace ((x + 90 * IZR k - centerX + 200) / 30)
      with ((x - centerX + 200) / 30 + IZR (3 * k))
      by (rewrite mult_IZR; field).
    replace ((y + 90 * IZR m - centerY + 200) / 30)
      with ((y - centerY + 200) / 30 + IZR (3 * m))
      by (rewrite mult_IZR; field).
    rewrite !Math_floor_shift.
    set (gx := JS.Math_floor ((x - centerX + 200) / 30)).
    set (gy := JS.Math_floor ((y - centerY + 200) / 30)).
    replace (x + 90 * IZR k
             - (centerX - 200 + IZR (gx + 3 * k) * 30 + 30 / 2))
      with (x - (centerX - 200 + IZR gx * 30 + 30 / 2))
      by (rewrite plus_IZR, mult_IZR; ring).
    replace (y + 90 * IZR m
             - (centerY - 200 + IZR (gy + 3 * m) * 30 + 30 / 2))
      with (y - (centerY - 200 + IZR gy * 30 + 30 / 2))
      by (rewrite plus_IZR, mult_IZR; ring).
    replace (Z.rem (gx + 3 * k + (gy + 3 * m)) 3 =? 0)%Z
      with (Z.rem (gx + gy) 3 =? 0)%Z; [reflexivity|].
    destruct (Z.eqb_spec (Z.rem (gx + gy) 3) 0) as [E|E];
      destruct (Z.eqb_spec (Z.rem (gx + 3 * k + (gy + 3 * m)) 3) 0)
        as [E'|E']; try reflexivity; exfalso.
    + apply E'. apply Z.rem_divide; [lia|]. apply Z.rem_divide in E; [|lia].
      destruct E as [q Hq]. exists (q + k + m)%Z. lia.
    + apply E. apply Z.rem_divide; [lia|]. apply Z.rem_divide in E'; [|lia].
      destruct E' as [q Hq]. exists (q - k - m)%Z. lia.
Qed.

(** ** The host page *)

Lemma toLowerCase_r (key : string) :
  String.eqb (Index.toLowerCase key) "r"
  = (String.eqb key "r" || String.eqb key "R")%bool.
Proof.
  destruct key as [|c key]; [reflexivity|].
  destruct key as [|c' key].
  - destruct c as [[] [] [] [] [] [] [] []]; reflexivity.
  - transitivity false.
    + unfold Index.toLowerCase. cbn [list_ascii_of_string map string_of_list_ascii].
      cbn [String.eqb]. destruct (Ascii.eqb _ "r"); reflexivity.
    + cbn [String.eqb]. destruct (Ascii.eqb c "r"), (Ascii.eqb c "R"); reflexivity.
Qed.

(** X18.  The page's key handler acts on two keys only: Space starts a
    transformation unless the page is transformed or animating, and
    otherwise [r] or [R] requests a reset unless the page is animating;
    every other key leaves the page as it is. *)
Theorem handleKeyPress_keys (code key : string) (h : Index.t) :
  Index.handleKeyPress code key h
  = if String.eqb code "Space" then
      if Index.isTransformed h || Index.isAnimating h then h
      else Index.handleTransform h
    else if String.eqb key "r" || String.eqb key "R" then
      if Index.isAnimating h then h else Index.handleReset h
    else h.
Proof.
  unfold Index.handleKeyPress. rewrite toLowerCase_r.
  destruct (String.eqb code "Space").
  - destruct (Index.isTransformed h); cbn [negb orb]; [reflexivity|].
    unfold Index.handleTransform. destruct (Index.isAnimating h); reflexivity.
  - destruct (String.eqb key "r" || String.eqb key "R"); [|reflexivity].
    unfold Index.handleReset. destruct (Index.isAnimating h); reflexivity.
Qed.

(** X19.  The page stops animating one second after a reset request,
    while the component's scatter timeline takes at least two: a second
    reset request made in between passes the page's guard and is ignored
    only by the component's own guard, which leaves the component as it
    is.  The Transform button never reaches the component. *)
Theorem second_reset_reaches_component_guard (h : Index.t) (system : System.t) :
  Index.isAnimating h = false ->
  Index.particleSystemRef h = Some system ->
  System.isResetting system = false ->
  let h1 := Index.resetTimeout (Index.handleReset h) in
  Index.isAnimating h1 = false /\
  Index.particleSystemRef h1 = Some (System.resetAnimation system) /\
  Index.particleSystemRef (Index.handleReset h1) = Index.particleSystemRef h1 /\
  Index.isAnimating (Index.handleReset h1) = true /\
  Index.particleSystemRef (Index.handleTransform h) = Index.particleSystemRef h.
Proof.
  intros Ha Href Hr.
  destruct (resetAnimation_starts system Hr) as (Hset & _).
  assert (E : Index.resetTimeout (Index.handleReset h)
              = Index.mk false (Index.particleCount h) 0 (Index.showStats h)
                  false (Index.fps h) (Some (System.resetAnimation system))
                  (Index.scheduled h ++ [Index.ResetTimeout])).
  { unfold Index.handleReset. rewrite Ha, Href. reflexivity. }
  cbv zeta. rewrite E. unfold Index.handleReset, Index.handleTransform.
  rewrite Ha. cbn. unfold System.resetParticles.
  repeat split. unfold System.resetAnimation at 1. rewrite Hset. reflexivity.
Qed.

Lemma second_reset_reaches_component_guard_witness :
  Index.isAnimating (Index.transformTimeout Sample.page) = false /\
  Index.particleSystemRef (Index.transformTimeout Sample.page)
  = Some Sample.system /\
  System.isResetting Sample.system = false /\
  (let h1 := Index.resetTimeout
               (Index.handleReset (Index.transformTimeout Sample.page)) in
   Index.particleSystemRef (Index.handleReset h1) = Index.particleSystemRef h1).
Proof.
  split; [reflexivity|]. split; [reflexivity|]. split; [reflexivity|].
  pose proof (second_reset_reaches_component_guard
                (Index.transformTimeout Sample.page) Sample.system
                eq_refl eq_refl eq_refl) as (_ & _ & H & _).
  exact H.
Defined.

(** ** The geometry of the wings *)

Lemma Forall2_map_both {A B : Type} (P : B -> B -> Prop) (f g : A -> B)
    (l : list A) :
  (forall a, P (f a) (g a)) -> Forall2 P (map f l) (map g l).
Proof. intros H. induction l; cbn; constructor; auto. Qed.

Lemma Rabs_le_inv (x a : R) : Rabs x <= a -> - a <= x <= a.
Proof.
  intros H. pose proof (Rle_abs x). pose proof (Rle_abs (- x)) as H'.
  rewrite Rabs_Ropp in H'. lra.
Qed.

Lemma wing_reach (side radius c s : R) (lo hi : R) :
  side = -1 \/ side = 1 -> 0 <= lo -> lo <= radius <= hi -> -1 <= c <= 1 ->
  0 <= s -> - (hi * s) <= side * radius * c * s <= hi * s.
Proof.
  intros Hside Hlo Hr Hc Hs.
  assert (H1 : 0 <= (1 - c) * radius) by (apply Rmult_le_pos; lra).
  assert (H2 : 0 <= (1 + c) * radius) by (apply Rmult_le_pos; lra).
  assert (H3 : 0 <= (hi - radius * c) * s) by (apply Rmult_le_pos; lra).
  assert (H4 : 0 <= (hi + radius * c) * s) by (apply Rmult_le_pos; lra).
  destruct Hside as [-> | ->]; split; lra.
Qed.

Lemma side_values (side : Z) :
  side = (-1)%Z \/ side = 1%Z -> IZR side = -1 \/ IZR side = 1.
Proof. intros [-> | ->]; [left | right]; reflexivity. Qed.

Lemma upperWingPoint_box (centerX centerY scale : R) (u side i : Z) :
  0 <= scale -> side = (-1)%Z \/ side = 1%Z ->
  Shape.inWingBox centerX centerY scale
    (Shape.upperWingPoint centerX centerY scale u side i).
Proof.
  intros Hs Hside. unfold Shape.inWingBox, Shape.upperWingPoint. cbn.
  set (angle := IZR i / (IZR u / 2) * PI).
  pose proof (SIN_bound (angle * 2)) as S2. pose proof (SIN_bound angle) as S1.
  pose proof (COS_bound angle) as C1.
  set (radius := 40 + 25 * sin (angle * 2)).
  assert (Hr : 15 <= radius <= 65) by (unfold radius; lra).
  pose proof (wing_reach (IZR side) radius (cos angle) scale 15 65
                (side_values side Hside)) as Hx.
  pose proof (wing_reach 1 radius (sin angle) scale 15 65
                (or_intror eq_refl)) as Hy.
  split; apply Rabs_le; lra.
Qed.

Lemma lowerWingPoint_box (centerX centerY scale : R) (l side i : Z) :
  0 <= scale -> side = (-1)%Z \/ side = 1%Z ->
  Shape.inWingBox centerX centerY scale
    (Shape.lowerWingPoint centerX centerY scale l side i).
Proof.
  intros Hs Hside. unfold Shape.inWingBox, Shape.lowerWingPoint. cbn.
  set (angle := IZR i / (IZR l / 2) * PI * 0.7).
  pose proof (SIN_bound (angle * 3)) as S3. pose proof (SIN_bound angle) as S1.
  pose proof (COS_bound angle) as C1.
  set (radius := 25 + 15 * sin (angle * 3)).
  assert (Hr : 10 <= radius <= 40) by (unfold radius; lra).
  pose proof (wing_reach (IZR side) radius (cos angle) scale 10 40
                (side_values side Hside)) as Hx.
  pose proof (wing_reach 1 radius (sin angle) scale 10 40
                (or_intror eq_refl)) as Hy.
  split; apply Rabs_le; lra.
Qed.

(** The shape is the body and antenna points followed by the left upper
    wing, the right upper wing, the left lower wing and the right lower
    wing. *)
Lemma generate_wings (win : Window) (n : Z) :
  let centerX := innerWidth win / 2 in
  let centerY := innerHeight win / 2 - 50 in
  let scale := JS.Math_min (innerWidth win) (innerHeight win) / 800 in
  exists pre ul ur ll lr,
    Shape.generateButterflyShape win n = pre ++ ul ++ ur ++ ll ++ lr /\
    Forall (fun p => ButterflyPoint.type p = body \/
                     ButterflyPoint.type p = antenna) pre /\
    Forall (fun p => ButterflyPoint.type p = upperWing) (ul ++ ur) /\
    Forall (fun p => ButterflyPoint.type p = lowerWing) (ll ++ lr) /\
    Forall2 (Shape.mirrored centerX) ul ur /\
    Forall2 (Shape.mirrored centerX) ll lr /\
    (0 <= scale ->
     Forall (Shape.inWingBox centerX centerY scale) (ul ++ ur ++ ll ++ lr)).
Proof.
  intros cX cY sc.
  unfold Shape.generateButterflyShape, Shape.generate. cbv zeta.
  fold cX cY sc.
  set (b := JS.Math_floor (IZR n * 0.15)).
  set (a := JS.Math_floor (IZR n * 0.05)).
  destruct (body_loop cX cY sc b (JS.range b) Shape.start)
    as (lb & Hpb & Heb & _).
  set (g1 := fold_left (Shape.bodyStep cX cY sc b) (JS.range b) Shape.start) in *.
  edestruct (both_sides_emitted antenna (Shape.antennaStep cX cY sc a))
    with (n := a) (g := g1) as (la & Hpa & Hea & _).
  { intros side g0 i. unfold Shape.antennaStep. cbv zeta. reflexivity. }
  { intros side i. split; reflexivity. }
  set (g2 := Shape.both_sides (Shape.antennaStep cX cY sc a) a g1) in *.
  set (w := (n - Z.of_nat (length (Shape.points g2)))%Z).
  unfold Shape.generateWings. cbv zeta.
  set (u := JS.Math_floor (IZR w * 0.6)).
  destruct (both_sides_spec (Shape.upperWingStep cX cY sc u)
              (Shape.upperWingPoint cX cY sc u) (IZR u / 2) u g2)
    as [Hpu _]; [intros; reflexivity|].
  set (g3 := Shape.both_sides (Shape.upperWingStep cX cY sc u) u g2) in *.
  destruct (both_sides_spec (Shape.lowerWingStep cX cY sc (w - u))
              (Shape.lowerWingPoint cX cY sc (w - u)) (IZR (w - u) / 2)
              (w - u) g3)
    as [Hpl _]; [intros; reflexivity|].
  rewrite Hpl, Hpu, Hpa, Hpb. cbn [Shape.start Shape.points app].
  exists (lb ++ la),
    (map (Shape.upperWingPoint cX cY sc u (-1)) (JS.half_range u)),
    (map (Shape.upperWingPoint cX cY sc u 1) (JS.half_range u)),
    (map (Shape.lowerWingPoint cX cY sc (w - u) (-1)) (JS.half_range (w - u))),
    (map (Shape.lowerWingPoint cX cY sc (w - u) 1) (JS.half_range (w - u))).
  split; [rewrite <- !app_assoc; reflexivity|].
  split; [|split; [|split; [|split; [|split]]]].
  - apply Forall_app. split; (eapply Forall_impl; [|eassumption]);
      intros p [Hp _]; auto.
  - apply Forall_app; split; apply Forall_forall; intros p Hp;
      apply in_map_iff in Hp; destruct Hp as (i & <- & _); reflexivity.
  - apply Forall_app; split; apply Forall_forall; intros p Hp;
      apply in_map_iff in Hp; destruct Hp as (i & <- & _); reflexivity.
  - apply Forall2_map_both. intros i.
    unfold Shape.mirrored, Shape.upperWingPoint. cbn.
    repeat split; try reflexivity. ring.
  - apply Forall2_map_both. intros i.
    unfold Shape.mirrored, Shape.lowerWingPoint. cbn.
    repeat split; try reflexivity. ring.
  - intros Hs. repeat (apply Forall_app; split);
      apply Forall_forall; intros p Hp; apply in_map_iff in Hp;
      destruct Hp as (i & <- & _);
      (apply upperWingPoint_box || apply lowerWingPoint_box); auto.
Qed.

(** X20.  In a window of non-negative size, every wing point of the
    shape lies within 65 scaled pixels of the centre horizontally and 82
    vertically, whatever the count; in a window at least 126 pixels high
    it lies inside the window. *)
Theorem wings_fit_the_window (win : Window) (n : Z) :
  0 <= innerWidth win -> 0 <= innerHeight win ->
  let scale := JS.Math_min (innerWidth win) (innerHeight win) / 800 in
  Forall
    (fun p =>
       ButterflyPoint.type p = upperWing \/ ButterflyPoint.type p = lowerWing ->
       Shape.inWingBox (innerWidth win / 2) (innerHeight win / 2 - 50) scale p /\
       (126 <= innerHeight win ->
        0 <= ButterflyPoint.x p <= innerWidth win /\
        0 <= ButterflyPoint.y p <= innerHeight win))
    (Shape.generateButterflyShape win n).
Proof.
  intros Hw Hh scale.
  destruct (generate_wings win n)
    as (pre & ul & ur & ll & lr & -> & Hpre & _ & _ & _ & _ & Hbox).
  cbv zeta in Hbox. fold scale in Hbox.
  assert (Hs : 0 <= scale).
  { unfold scale, JS.Math_min, Rmin.
    destruct (Rle_dec (innerWidth win) (innerHeight win)); lra. }
  assert (Hsw : scale * 800 <= innerWidth win /\ scale * 800 <= innerHeight win).
  { unfold scale, JS.Math_min, Rmin.
    destruct (Rle_dec (innerWidth win) (innerHeight win)); split; lra. }
  apply Forall_app. split.
  - eapply Forall_impl; [|exact Hpre]. cbn. intros p [Hp | Hp] [Hq | Hq];
      rewrite Hp in Hq; discriminate Hq.
  - eapply Forall_impl; [|exact (Hbox Hs)]. cbn. intros p [Hx Hy] _.
    split; [split; assumption|]. intros H126.
    apply Rabs_le_inv in Hx. apply Rabs_le_inv in Hy. lra.
Qed.

Lemma wings_fit_the_window_witness :
  0 <= innerWidth Sample.win /\ 0 <= innerHeight Sample.win /\
  Forall
    (fun p =>
       ButterflyPoint.type p = upperWing \/ ButterflyPoint.type p = lowerWing ->
       Shape.inWingBox (innerWidth Sample.win / 2)
         (innerHeight Sample.win / 2 - 50)
         (JS.Math_min (innerWidth Sample.win) (innerHeight Sample.win) / 800) p /\
       (126 <= innerHeight Sample.win ->
        0 <= ButterflyPoint.x p <= innerWidth Sample.win /\
        0 <= ButterflyPoint.y p <= innerHeight Sample.win))
    (Shape.generateButterflyShape Sample.win 1500).
Proof.
  assert (Hw : 0 <= innerWidth Sample.win) by (cbn; lra).
  assert (Hh : 0 <= innerHeight Sample.win) by (cbn; lra).
  split; [exact Hw|]. split; [exact Hh|].
  apply (wings_fit_the_window Sample.win 1500 Hw Hh).
Defined.

(** X21.  The wing points of the shape come as the left upper wing, the
    right upper wing, the left lower wing and the right lower wing, after
    all body and antenna points; each right wing is the mirror image of
    the left one, point by point, in the vertical line through the
    centre. *)
Theorem wings_are_mirrored (win : Window) (n : Z) :
  exists pre ul ur ll lr,
    Shape.generateButterflyShape win n = pre ++ ul ++ ur ++ ll ++ lr /\
    Forall (fun p => ButterflyPoint.type p = body \/
                     ButterflyPoint.type p = antenna) pre /\
    Forall (fun p => ButterflyPoint.type p = upperWing) (ul ++ ur) /\
    Forall (fun p => ButterflyPoint.type p = lowerWing) (ll ++ lr) /\
    Forall2 (Shape.mirrored (innerWidth win / 2)) ul ur /\
    Forall2 (Shape.mirrored (innerWidth win / 2)) ll lr.
Proof.
  destruct (generate_wings win n)
    as (pre & ul & ur & ll & lr & Hs & Hpre & Htu & Htl & Hu & Hl & _).
  cbv zeta in *. exists pre, ul, ur, ll, lr.
  repeat split; try assumption.
Qed.

(** ** The formation path *)

(** X22.  For a progress within [0, 1], [updateParticlePosition] draws
    the particle within 20 pixels horizontally and 10 vertically of a
    point of the segment from its start to its target, with a scale
    within [0.7, 1.2] and an opacity within [0.4, 0.9]; it moves neither
    end of the segment. *)
Theorem formation_path_stays_near_segment (p : Particle.t) :
  0 <= Particle.progress p <= 1 ->
  let p' := Motion.updateParticlePosition p in
  exists e, 0 <= e <= 1 /\
    Rabs (Element.cx (Particle.element p')
          - (Particle.startX p + (Particle.targetX p - Particle.startX p) * e))
    <= 20 /\
    Rabs (Element.cy (Particle.element p')
          - (Particle.startY p + (Particle.targetY p - Particle.startY p) * e))
    <= 10 /\
    0.7 <= Element.scale (Particle.element p') <= 1.2 /\
    0.4 <= Element.opacity (Particle.element p') <= 0.9 /\
    Particle.startX p' = Particle.startX p /\
    Particle.startY p' = Particle.startY p /\
    Particle.targetX p' = Particle.targetX p /\
    Particle.targetY p' = Particle.targetY p.
Proof.
  intros Hp. exists (Motion.easeOutExpo (Particle.progress p)).
  destruct (easeOutExpo_range (Particle.progress p)) as [E0 E1]; [lra|].
  split; [split; assumption|].
  unfold Motion.updateParticlePosition, Motion.curvePoint. cbn.
  set (t := Particle.progress p) in *.
  pose proof (SIN_bound (t * PI)) as S1.
  pose proof (COS_bound (t * PI * 2)) as C2.
  pose proof (SIN_bound (t * PI * 3)) as S3.
  set (s1 := sin (t * PI)) in *. set (c2 := cos (t * PI * 2)) in *.
  set (s3 := sin (t * PI * 3)) in *.
  assert (Hx : -1 <= s1 * c2 <= 1) by (split; nra).
  assert (Hy : -1 <= s1 * s3 <= 1) by (split; nra).
  destruct (JS.gtb t 0.95 && negb (Particle.formed p)); cbn;
    (split; [apply Rabs_le; lra|]); (split; [apply Rabs_le; lra|]);
    repeat split; lra.
Qed.

Lemma formation_path_stays_near_segment_witness :
  0 <= Particle.progress Sample.particle <= 1 /\
  exists e, 0 <= e <= 1 /\
    Rabs (Element.cx (Particle.element
                        (Motion.updateParticlePosition Sample.particle))
          - (Particle.startX Sample.particle
             + (Particle.targetX Sample.particle
                - Particle.startX Sample.particle) * e))
    <= 20.
Proof.
  assert (H : 0 <= Particle.progress Sample.particle <= 1) by (cbn; lra).
  split; [exact H|].
  destruct (formation_path_stays_near_segment Sample.particle H)
    as (e & He & Hx & _).
  exists e. split; assumption.
Defined.

(** ** After the scatter *)

Lemma rescatter_fold_edge (ps acc : list Particle.t) (st : System.t) :
  (forall k, 0 <= System.random st k < 1) ->
  0 < innerWidth (System.window st) -> 0 < innerHeight (System.window st) ->
  exists ps',
    fold_left System.rescatter ps (acc, st)
    = (acc ++ ps',
       System.set_randomCalls (System.randomCalls st + 2 * length ps) st) /\
    Forall2
      (fun p p' =>
         System.resetOf p p' /\ System.sameIdentity p p' /\
         Particle.element p' = Particle.element p /\
         System.onEdge (System.window st)
           (Particle.startX p', Particle.startY p'))
      ps ps'.
Proof.
  intros Hd Hw Hh. revert acc st Hd Hw Hh.
  induction ps as [|p ps IH]; intros acc st Hd Hw Hh.
  - exists []. cbn. rewrite app_nil_r, Nat.add_0_r.
    split; [destruct st; reflexivity | constructor].
  - cbn [fold_left]. unfold System.rescatter at 2.
    destruct (getEdgePosition_on_edge st Hd Hw Hh) as [He Hs].
    destruct (System.getEdgePosition st) as [[ex ey] st1].
    cbn [fst snd] in He, Hs. subst st1.
    match goal with
    | |- context [fold_left System.rescatter ps (?a, ?s)] =>
        destruct (IH a s Hd Hw Hh) as (ps' & -> & HF)
    end.
    eexists (_ :: ps'). rewrite <- app_assoc. cbn [app length].
    split.
    + f_equal. clear. destruct st. unfold System.set_randomCalls.
      cbn -[Nat.mul Nat.add]. f_equal. lia.
    + constructor; [|exact HF].
      unfold System.resetOf, System.sameIdentity. cbn.
      repeat split; try reflexivity; exact He.
Qed.

(** X23.  With draws in [0, 1) and a window of positive size, the
    completion of the scatter timeline leaves every particle with its
    identity, at rest and aimed at its original target, starting from a
    point on the edge outside the window; it takes two draws per
    particle, ends the reset and schedules a formation timeline over all
    the particles. *)
Theorem scatter_completion_restarts (moves : list (R * R * R)) (st : System.t) :
  (forall k, 0 <= System.random st k < 1) ->
  0 < innerWidth (System.window st) -> 0 < innerHeight (System.window st) ->
  let st' := System.scatterComplete moves st in
  Forall2
    (fun p p' =>
       System.resetOf p p' /\ System.sameIdentity p p' /\
       System.onEdge (System.window st)
         (Particle.startX p', Particle.startY p'))
    (System.particles st) (System.particles st') /\
  System.isResetting st' = false /\ System.isFormed st' = false /\
  System.formationProgress st' = 0 /\
  System.randomCalls st'
  = (System.randomCalls st + 2 * length (System.particles st))%nat /\
  System.animations st'
  = System.animations st
    ++ [System.FormationTimeline
          (System.batches (length (System.particles st)))].
Proof.
  intros Hd Hw Hh. unfold System.scatterComplete, System.scatterOnComplete.
  cbn [System.particles System.set_particles].
  destruct (rescatter_fold_edge
              (System.scatterEnd moves (System.particles st)) []
              (System.set_particles
                 (System.scatterEnd moves (System.particles st)) st)
              Hd Hw Hh) as (ps' & -> & HF).
  assert (Hlen : length (System.scatterEnd moves (System.particles st))
                 = length (System.particles st))
    by (unfold System.scatterEnd; apply mapi_length).
  pose proof (Forall2_length HF) as Hlen'.
  cbn. rewrite Hlen. rewrite <- Hlen', Hlen.
  split; [|repeat split].
  apply Forall2_compose
    with (P := System.sameIdentity)
         (Q := fun p p' =>
                 System.resetOf p p' /\ System.sameIdentity p p' /\
                 Particle.element p' = Particle.element p /\
                 System.onEdge (System.window st)
                   (Particle.startX p', Particle.startY p'))
         (l2 := System.scatterEnd moves (System.particles st)).
  - intros a b c Hab (Hres & Hid & _ & Hedge).
    split; [|split; [apply (sameIdentity_trans a b c); assumption | exact Hedge]].
    unfold System.resetOf, System.sameIdentity in *.
    destruct Hab as (_&_&_&_&_&_&_&Hx&Hy). rewrite <- Hx, <- Hy. exact Hres.
  - unfold System.scatterEnd. apply Forall2_mapi_same. intros i p.
    destruct (nth_error moves i) as [[[x y] d]|];
      unfold System.sameIdentity; cbn; repeat split; reflexivity.
  - exact HF.
Qed.

Lemma scatter_completion_restarts_witness :
  (forall k, 0 <= System.random Sample.system k < 1) /\
  System.isResetting (System.scatterComplete [(0, 0, 2)] Sample.system) = false /\
  System.randomCalls (System.scatterComplete [(0, 0, 2)] Sample.system) = 2%nat.
Proof.
  split; [exact sample_draws|].
  destruct (scatter_completion_restarts [(0, 0, 2)] Sample.system
              sample_draws sample_width sample_height)
    as (_ & H1 & _ & _ & H2 & _).
  split; [exact H1 | exact H2].
Defined.

(** ** The statistics of a fresh component *)

Lemma createParticle_fold_made (P : ButterflyPoint.t -> Particle.t -> Prop) :
  (forall point q, Particle.formed q = false -> P point q) ->
  forall (l : list ButterflyPoint.t) (acc : list Particle.t) (st : System.t),
  exists qs k,
    fold_left System.createParticle l (acc, st)
    = (acc ++ qs, System.set_randomCalls k st) /\
    Forall2 P l qs.
Proof.
  intros HP. induction l as [|p l IH]; intros acc st.
  - exists [], (System.randomCalls st). cbn. rewrite app_nil_r.
    split; [destruct st; reflexivity | constructor].
  - cbn [fold_left]. unfold System.createParticle at 2.
    cbn [System.Math_random].
    destruct (getEdgePosition_draws
                (System.set_randomCalls (S (System.randomCalls st)) st))
      as (pos & k & ->).
    cbn [System.Math_random].
    edestruct IH as (qs & k' & -> & HF).
    eexists (_ :: qs), k'. rewrite <- app_assoc. split; [reflexivity|].
    constructor; [|exact HF]. apply HP. reflexivity.
Qed.

(** X24.  A component just mounted reports no formed particle, 0% and 60
    frames per second, whatever the count, the window and the draws. *)
Theorem fresh_component_stats (win : Window) (draws : nat -> R)
    (rectLeft rectTop now time : R) (count : Z) (transformed : bool) :
  System.getStats
    (System.mount win draws rectLeft rectTop now time count transformed)
  = (0%Z, 0%Z, 60%Z).
Proof.
  unfold System.mount.
  set (st0 := System.set_svgRef _ (System.firstRender win draws count transformed)).
  assert (Ha : System.animate now time st0
               = System.set_lastTimeRef now (System.set_frameCount 1 st0)).
  { unfold System.animate. cbn. unfold JS.eqb.
    destruct (Req_dec_T 0 0) as [_|N]; [reflexivity | contradiction N; reflexivity]. }
  rewrite Ha.
  unfold System.initEffect, System.createParticleSystem.
  cbn [System.svgRef st0 System.set_svgRef System.set_lastTimeRef
       System.set_frameCount System.firstRender].
  match goal with
  | |- context [fold_left System.createParticle ?l (?a, ?s)] =>
      destruct (createParticle_fold_made
                  (fun _ q => Particle.formed q = false) (fun _ q H => H) l a s)
        as (qs & k & -> & HF)
  end.
  unfold System.setupCanvas, System.animateFormation, System.getStats. cbn.
  assert (Hnone : filter Particle.formed qs = []).
  { clear - HF. induction HF as [|pt q l qs Hq _ IH]; cbn; [reflexivity|].
    rewrite Hq. exact IH. }
  rewrite Hnone. cbn. f_equal. f_equal.
  unfold System.Math_round, JS.Math_floor. symmetry. apply Int_part_spec.
  cbn. lra.
Qed.


